(** * toobusy: event-loop lag monitor — model and verified properties

    A shallow embedding of [toobusy.js].  The module keeps its state in
    file-level variables and in the closure of the function given to
    [setInterval]; here the file-level variables are the fields of one
    record that every operation takes and returns, and the closure variables
    of each [start()] activation live with the timer that captured them.

    JavaScript numbers are idealised: a finite number is an exact rational
    (no rounding, no negative zero), next to [NaN] and the two infinities.
    [Math.random()] and [Date.now()] are inputs of the operations that read
    them.  Listeners are opaque: they are recorded and named in every
    emission, and are assumed not to call back into the module. *)

From Stdlib Require Import ZArith QArith Qround Qminmax Lqa Lia List String Bool.
Import ListNotations.

Set Implicit Arguments.

(** ** JavaScript numbers *)

Module Num.

Inductive number : Type :=
| NaN
| PInf
| NInf
| Fin (q : Q).

Definition Qltb (x y : Q) : bool := negb (Qle_bool y x).
Definition isZero (q : Q) : bool := Qeq_bool q 0.

Definition ofZ (z : Z) : number := Fin (inject_Z z).

Definition neg (x : number) : number :=
  match x with
  | NaN => NaN
  | PInf => NInf
  | NInf => PInf
  | Fin q => Fin (- q)
  end.

(** [x + y] *)
Definition add (x y : number) : number :=
  match x, y with
  | NaN, _ | _, NaN => NaN
  | PInf, NInf | NInf, PInf => NaN
  | PInf, _ | _, PInf => PInf
  | NInf, _ | _, NInf => NInf
  | Fin a, Fin b => Fin (a + b)
  end.

(** [x - y] *)
Definition sub (x y : number) : number := add x (neg y).

Definition signedInf (a : Q) (pos : number) : number :=
  if isZero a then NaN else if Qltb 0 a then pos else neg pos.

(** [x * y] *)
Definition mul (x y : number) : number :=
  match x, y with
  | NaN, _ | _, NaN => NaN
  | Fin a, Fin b => Fin (a * b)
  | Fin a, PInf | PInf, Fin a => signedInf a PInf
  | Fin a, NInf | NInf, Fin a => signedInf a NInf
  | PInf, PInf | NInf, NInf => PInf
  | PInf, NInf | NInf, PInf => NInf
  end.

(** [x / y]; a zero divisor is the positive zero. *)
Definition div (x y : number) : number :=
  match x, y with
  | NaN, _ | _, NaN => NaN
  | Fin a, Fin b => if isZero b then signedInf a PInf else Fin (a / b)
  | Fin _, PInf | Fin _, NInf => Fin 0
  | PInf, Fin b => if Qltb b 0 then NInf else PInf
  | NInf, Fin b => if Qltb b 0 then PInf else NInf
  | PInf, PInf | PInf, NInf | NInf, PInf | NInf, NInf => NaN
  end.

(** [x < y] *)
Definition ltb (x y : number) : bool :=
  match x, y with
  | NaN, _ | _, NaN => false
  | Fin a, Fin b => Qltb a b
  | _, NInf => false
  | NInf, _ => true
  | PInf, _ => false
  | Fin _, PInf => true
  end.

(** [x > y] *)
Definition gtb (x y : number) : bool := ltb y x.

(** [x <= y] *)
Definition leb (x y : number) : bool :=
  match x, y with
  | NaN, _ | _, NaN => false
  | Fin a, Fin b => Qle_bool a b
  | NInf, _ => true
  | _, PInf => true
  | PInf, _ => false
  | Fin _, NInf => false
  end.

(** [x === y] on numbers *)
Definition strictEq (x y : number) : bool :=
  match x, y with
  | Fin a, Fin b => Qeq_bool a b
  | PInf, PInf | NInf, NInf => true
  | _, _ => false
  end.

(** [Math.max(x, y)] *)
Definition Math_max (x y : number) : number :=
  match x, y with
  | NaN, _ | _, NaN => NaN
  | _, _ => if ltb x y then y else x
  end.

(** [Math.round(x)]: the integer nearest to [x], halves going up. *)
Definition Math_round (x : number) : number :=
  match x with
  | Fin q => ofZ (Qfloor (q + (1 # 2)))
  | _ => x
  end.

(** Truthiness of a number: everything but [NaN] and zero. *)
Definition truthy (x : number) : bool :=
  match x with
  | NaN => false
  | Fin q => negb (isZero q)
  | _ => true
  end.

(** [x || y] on numbers *)
Definition orElse (x y : number) : number := if truthy x then x else y.

(** A number is an integer when it is finite with no fractional part. *)
Definition isInteger (x : number) : bool :=
  match x with
  | Fin q => Qeq_bool q (inject_Z (Qfloor q))
  | _ => false
  end.

(** Equality of numbers as values: rationals up to [Qeq]. *)
Definition same (x y : number) : Prop :=
  match x, y with
  | NaN, NaN | PInf, PInf | NInf, NInf => True
  | Fin a, Fin b => a == b
  | _, _ => False
  end.

End Num.

Import Num.

(** ** JavaScript values as the setters receive them *)

Inductive value : Type :=
| VUndefined
| VNull
| VBoolean (b : bool)
| VNumber (n : number)
| VBigInt (z : Z)
| VString (s : string)
| VObject.                      (* objects, functions and symbols *)

(** [!v] is [negb (toBoolean v)]. *)
Definition toBoolean (v : value) : bool :=
  match v with
  | VUndefined | VNull => false
  | VBoolean b => b
  | VNumber n => truthy n
  | VBigInt z => negb (z =? 0)%Z
  | VString s => negb (String.eqb s EmptyString)
  | VObject => true
  end.

(** [typeof v === "number"] *)
Definition isNumber (v : value) : bool :=
  match v with
  | VNumber _ => true
  | _ => false
  end.

(** The outcome of a call: a returned value or a thrown [Error]. *)
Inductive completion (A : Type) : Type :=
| Return (a : A)
| Throw (message : string).
Arguments Throw {A} message%_string.

Definition threw {A} (c : completion A) : bool :=
  match c with
  | Return _ => false
  | Throw _ => true
  end.

(** ** Module state *)

Definition STANDARD_HIGHWATER : number := ofZ 70.
Definition STANDARD_INTERVAL : number := ofZ 500.
Definition STANDARD_LAGS : number := ofZ 1.
Definition SMOOTHING_FACTOR : number := Fin (1 # 3).

Inductive eventName : Type := LAG_EVENT | EASING_EVENT.

(** Listeners are identified by a number; what they do is not modelled. *)
Definition listener : Type := nat.

(** One [emit]: the event, the value it carries and the listeners called,
    in registration order. *)
Record emission : Type := Emit {
  event : eventName;
  carried : number;
  called : list listener
}.

(** A recurring timer made by [setInterval] in [start()], with the two
    variables of that activation which its callback captured. *)
Record timer : Type := Timer {
  handle : nat;
  delay : number;
  isLagging : bool;
  lagTicks : Z
}.

Record state : Type := State {
  lastTime : option number;        (* [None] is [undefined] *)
  highWater : number;
  interval : number;
  smoothingFactor : number;
  successiveLags : number;
  currentLag : number;
  checkInterval : option nat;      (* [None] is [undefined] *)
  lagEventThreshold : number;
  lagListeners : list listener;    (* eventEmitter, LAG_EVENT *)
  easingListeners : list listener; (* eventEmitter, EASING_EVENT *)
  timers : list timer;             (* the runtime's active intervals *)
  nextHandle : nat                 (* the runtime's next fresh handle *)
}.

Definition set_lastTime (v : option number) (s : state) : state :=
  State v (highWater s) (interval s) (smoothingFactor s) (successiveLags s)
        (currentLag s) (checkInterval s) (lagEventThreshold s)
        (lagListeners s) (easingListeners s) (timers s) (nextHandle s).

Definition set_highWater (v : number) (s : state) : state :=
  State (lastTime s) v (interval s) (smoothingFactor s) (successiveLags s)
        (currentLag s) (checkInterval s) (lagEventThreshold s)
        (lagListeners s) (easingListeners s) (timers s) (nextHandle s).

Definition set_interval (v : number) (s : state) : state :=
  State (lastTime s) (highWater s) v (smoothingFactor s) (successiveLags s)
        (currentLag s) (checkInterval s) (lagEventThreshold s)
        (lagListeners s) (easingListeners s) (timers s) (nextHandle s).

Definition set_smoothingFactor (v : number) (s : state) : state :=
  State (lastTime s) (highWater s) (interval s) v (successiveLags s)
        (currentLag s) (checkInterval s) (lagEventThreshold s)
        (lagListeners s) (easingListeners s) (timers s) (nextHandle s).

Definition set_successiveLags (v : number) (s : state) : state :=
  State (lastTime s) (highWater s) (interval s) (smoothingFactor s) v
        (currentLag s) (checkInterval s) (lagEventThreshold s)
        (lagListeners s) (easingListeners s) (timers s) (nextHandle s).

Definition set_currentLag (v : number) (s : state) : state :=
  State (lastTime s) (highWater s) (interval s) (smoothingFactor s)
        (successiveLags s) v (checkInterval s) (lagEventThreshold s)
        (lagListeners s) (easingListeners s) (timers s) (nextHandle s).

Definition set_checkInterval (v : option nat) (s : state) : state :=
  State (lastTime s) (highWater s) (interval s) (smoothingFactor s)
        (successiveLags s) (currentLag s) v (lagEventThreshold s)
        (lagListeners s) (easingListeners s) (timers s) (nextHandle s).

Definition set_lagEventThreshold (v : number) (s : state) : state :=
  State (lastTime s) (highWater s) (interval s) (smoothingFactor s)
        (successiveLags s) (currentLag s) (checkInterval s) v
        (lagListeners s) (easingListeners s) (timers s) (nextHandle s).

Definition set_lagListeners (v : list listener) (s : state) : state :=
  State (lastTime s) (highWater s) (interval s) (smoothingFactor s)
        (successiveLags s) (currentLag s) (checkInterval s)
        (lagEventThreshold s) v (easingListeners s) (timers s) (nextHandle s).

Definition set_easingListeners (v : list listener) (s : state) : state :=
  State (lastTime s) (highWater s) (interval s) (smoothingFactor s)
        (successiveLags s) (currentLag s) (checkInterval s)
        (lagEventThreshold s) (lagListeners s) v (timers s) (nextHandle s).

Definition set_timers (v : list timer) (s : state) : state :=
  State (lastTime s) (highWater s) (interval s) (smoothingFactor s)
        (successiveLags s) (currentLag s) (checkInterval s)
        (lagEventThreshold s) (lagListeners s) (easingListeners s) v
        (nextHandle s).

Definition set_nextHandle (v : nat) (s : state) : state :=
  State (lastTime s) (highWater s) (interval s) (smoothingFactor s)
        (successiveLags s) (currentLag s) (checkInterval s)
        (lagEventThreshold s) (lagListeners s) (easingListeners s) (timers s)
        v.

(** ** The timer runtime *)

(** [clearInterval(h)]: the timer with that handle stops; [undefined] and
    handles that are no longer active are ignored. *)
Definition clearInterval (h : option nat) (s : state) : state :=
  match h with
  | None => s
  | Some n =>
      set_timers (filter (fun t => negb (handle t =? n)%nat) (timers s)) s
  end.

(** [start()]: two fresh closure variables and a new interval over them,
    whose handle is assigned to [checkInterval]; [unref()] changes nothing
    that is modelled here. *)
Definition start (s : state) : state :=
  let h := nextHandle s in
  let s := set_timers (timers s ++ [Timer h (interval s) false 0]) s in
  let s := set_nextHandle (S h) s in
  set_checkInterval (Some h) s.

(** ** The public operations *)

(** [toobusy()], with the value that [Math.random()] returns. *)
Definition toobusy (random : Q) (s : state) : bool :=
  let pctToBlock := div (sub (currentLag s) (highWater s)) (highWater s) in
  ltb (Fin random) pctToBlock.

Definition toobusy_interval (newInterval : value) (s : state)
  : completion number * state :=
  if negb (toBoolean newInterval) then (Return (interval s), s)
  else match newInterval with
       | VNumber n =>
           let n := Math_round n in
           if ltb n (ofZ 16)
           then (Throw "Interval should be greater than 16ms.", s)
           else
             let s := set_currentLag (ofZ 0) s in
             let s := set_interval n s in
             let s := start s in
             (Return (interval s), s)
       | _ => (Throw "Interval must be a number.", s)
       end.

Definition toobusy_lag (s : state) : number := Math_round (currentLag s).

Definition toobusy_maxLag (newLag : value) (s : state)
  : completion number * state :=
  if negb (toBoolean newLag) then (Return (highWater s), s)
  else match newLag with
       | VNumber n =>
           let n := Math_round n in
           if ltb n (ofZ 10)
           then (Throw "Maximum lag should be greater than 10ms.", s)
           else
             let s := set_highWater n s in
             (Return (highWater s), s)
       | _ => (Throw "MaxLag must be a number.", s)
       end.

Definition toobusy_consecutiveLags (threshold : value) (s : state)
  : completion number * state :=
  if negb (toBoolean threshold) then (Return (successiveLags s), s)
  else match threshold with
       | VNumber n =>
           let n := Math_round n in
           let s := set_successiveLags n s in
           (Return (successiveLags s), s)
       | _ => (Throw "threshold must be a number.", s)
       end.

Definition toobusy_smoothingFactor (newFactor : value) (s : state)
  : completion number * state :=
  if negb (toBoolean newFactor) then (Return (smoothingFactor s), s)
  else match newFactor with
       | VNumber n =>
           if leb n (ofZ 0) || gtb n (ofZ 1)
           then (Throw "Smoothing factor should be in range ]0,1].", s)
           else
             let s := set_smoothingFactor n s in
             (Return (smoothingFactor s), s)
       | _ => (Throw "NewFactor must be a number.", s)
       end.

Definition toobusy_shutdown (s : state) : state :=
  let s := set_currentLag (ofZ 0) s in
  let s := set_checkInterval None (clearInterval (checkInterval s) s) in
  set_lagListeners [] s.

Definition toobusy_started (s : state) : bool :=
  match checkInterval s with
  | Some _ => true
  | None => false
  end.

Definition toobusy_onLag (fn : listener) (threshold : value) (s : state)
  : completion unit * state :=
  let r :=
    match threshold with
    | VNumber n => (Return n, s)
    | _ => toobusy_maxLag VUndefined s
    end in
  match r with
  | (Return t, s) =>
      let s := set_lagEventThreshold t s in
      (Return tt, set_lagListeners (lagListeners s ++ [fn]) s)
  | (Throw m, s) => (Throw m, s)
  end.

Definition toobusy_onEasing (fn : listener) (s : state) : state :=
  set_easingListeners (easingListeners s ++ [fn]) s.

(** ** The sampler: the function given to [setInterval] *)

(** The raw delay: [Math.max(0, now - lastTime - interval)]. *)
Definition rawLag (now : number) (last : option number) (every : number)
  : number :=
  let lag := sub now (match last with Some t => t | None => NaN end) in
  Math_max (ofZ 0) (sub lag every).

(** [(smoothingFactor * lag + (1 - smoothingFactor) * currentLag) || 0] *)
Definition dampen (factor lag current : number) : number :=
  orElse (add (mul factor lag) (mul (sub (ofZ 1) factor) current)) (ofZ 0).

(** The if/else that follows the smoothing, on the closure variables of
    timer [t]; [s] already holds the new [currentLag]. *)
Definition lagCheck (s : state) (t : timer) : timer * list emission :=
  if negb (strictEq (lagEventThreshold s) (ofZ (-1)))
     && gtb (currentLag s) (lagEventThreshold s)
     && Bool.eqb (isLagging t) false
  then
    let ticks := (lagTicks t + 1)%Z in
    if gtb (ofZ ticks) (sub (successiveLags s) (ofZ 1))
    then (Timer (handle t) (delay t) true ticks,
          [Emit LAG_EVENT (currentLag s) (lagListeners s)])
    else (Timer (handle t) (delay t) (isLagging t) ticks, [])
  else
    let easing :=
      (0 <? lagTicks t)%Z && (lagTicks t - 1 =? 0)%Z && isLagging t in
    let lagging := if easing then false else isLagging t in
    let ticks := if (0 <? lagTicks t)%Z then (lagTicks t - 1)%Z
                 else lagTicks t in
    (Timer (handle t) (delay t) lagging ticks,
     if easing then [Emit EASING_EVENT (currentLag s) (easingListeners s)]
     else []).

Definition putTimer (t : timer) (ts : list timer) : list timer :=
  map (fun u => if (handle u =? handle t)%nat then t else u) ts.

(** One firing of the interval with handle [h] when [Date.now()] is [now];
    [None] when no such interval is active. *)
Definition tick (h : nat) (now : Z) (s : state)
  : option (state * list emission) :=
  match find (fun t => (handle t =? h)%nat) (timers s) with
  | None => None
  | Some t =>
      let lag := rawLag (ofZ now) (lastTime s) (interval s) in
      let s := set_currentLag (dampen (smoothingFactor s) lag (currentLag s))
                              s in
      let s := set_lastTime (Some (ofZ now)) s in
      let (t', out) := lagCheck s t in
      Some (set_timers (putTimer t' (timers s)) s, out)
  end.

(** ** Module load and histories of calls *)

Definition initial : state :=
  State None STANDARD_HIGHWATER STANDARD_INTERVAL SMOOTHING_FACTOR
        STANDARD_LAGS (ofZ 0) None (ofZ (-1)) [] [] [] 0.

(** [require('toobusy')] runs the file, which ends with [start()]. *)
Definition loaded : state := start initial.

Inductive call : Type :=
| Toobusy (random : Q)
| Interval (newInterval : value)
| Lag
| MaxLag (newLag : value)
| ConsecutiveLags (threshold : value)
| SmoothingFactor (newFactor : value)
| Shutdown
| Started
| OnLag (fn : listener) (threshold : value)
| OnEasing (fn : listener)
| Tick (h : nat) (now : Z).

(** Whether a call is a registration of a lag listener. *)
Definition isOnLag (c : call) : bool :=
  match c with
  | OnLag _ _ => true
  | _ => false
  end.

(** The state a call leaves behind and what it emitted; a tick of an
    interval that is not active does not happen. *)
Definition step (c : call) (s : state) : state * list emission :=
  match c with
  | Toobusy _ | Lag | Started => (s, [])
  | Interval v => (snd (toobusy_interval v s), [])
  | MaxLag v => (snd (toobusy_maxLag v s), [])
  | ConsecutiveLags v => (snd (toobusy_consecutiveLags v s), [])
  | SmoothingFactor v => (snd (toobusy_smoothingFactor v s), [])
  | Shutdown => (toobusy_shutdown s, [])
  | OnLag fn v => (snd (toobusy_onLag fn v s), [])
  | OnEasing fn => (toobusy_onEasing fn s, [])
  | Tick h now =>
      match tick h now s with
      | Some r => r
      | None => (s, [])
      end
  end.

Fixpoint run (cs : list call) (s : state) : state * list emission :=
  match cs with
  | [] => (s, [])
  | c :: cs =>
      let (s1, out1) := step c s in
      let (s2, out2) := run cs s1 in
      (s2, out1 ++ out2)
  end.

Definition after (cs : list call) (s : state) : state := fst (run cs s).
Definition emitted (cs : list call) (s : state) : list emission :=
  snd (run cs s).

(** States the module can be in: those some history of calls leads to
    after the file was loaded. *)
Definition reachable (s : state) : Prop :=
  exists cs, after cs loaded = s.

(** Whether the interval with handle [h] is active. *)
Definition active (h : nat) (s : state) : bool :=
  existsb (Nat.eqb h) (map handle (timers s)).

(** ** The smoothing recurrence as the specification words it *)

(** [next = alpha * l + (1 - alpha) * prev], applied to the samples in
    turn. *)
Definition smoothing_spec (alpha : Q) (samples : list Q) (prev : Q) : Q :=
  fold_left (fun prev l => alpha * l + (1 - alpha) * prev) samples prev.

(** The raw samples of ticks at the times [nows], the one before them at
    [last]: [max(0, elapsed - sampleIntervalMs)]. *)
Fixpoint rawSamples_spec (every : Q) (last : Z) (nows : list Z) : list Q :=
  match nows with
  | [] => []
  | now :: nows =>
      Qmax 0 (inject_Z now - inject_Z last - every)
        :: rawSamples_spec every now nows
  end.

(** The file-level variables once the callback has stored the new
    [currentLag] and [lastTime], before it looks at the threshold. *)
Definition sampled (now : Z) (s : state) : state :=
  set_lastTime (Some (ofZ now))
    (set_currentLag
       (dampen (smoothingFactor s)
               (rawLag (ofZ now) (lastTime s) (interval s)) (currentLag s))
       s).

(** ** What the reachable states have in common *)

(** A number that is at least [k], infinity included. *)
Definition atLeast (k : Z) (n : number) : Prop :=
  match n with
  | Fin q => inject_Z k <= q
  | PInf => True
  | _ => False
  end.

Definition validFactor (n : number) : Prop :=
  match n with
  | Fin q => 0 < q <= 1
  | _ => False
  end.

Definition nonNegative (n : number) : Prop :=
  match n with
  | Fin q => 0 <= q
  | _ => False
  end.

(** What [Math.round] gives for a number other than [NaN]. *)
Definition rounded (n : number) : Prop :=
  match n with
  | Fin q => exists z, q = inject_Z z
  | NaN => False
  | _ => True
  end.

(** The closure variables of a timer: the count is never negative and is
    at least 1 while lagging. *)
Definition timerOk (t : timer) : Prop :=
  (0 <= lagTicks t)%Z /\ (isLagging t = true -> (1 <= lagTicks t)%Z).

Record wellFormed (s : state) : Prop := WellFormed {
  wf_highWater : atLeast 10 (highWater s);
  wf_interval : atLeast 16 (interval s);
  wf_factor : validFactor (smoothingFactor s);
  wf_lags : rounded (successiveLags s);
  wf_currentLag : nonNegative (currentLag s);
  wf_lastTime : match lastTime s with
                | Some n => exists z, n = ofZ z
                | None => True
                end;
  wf_handles : NoDup (map handle (timers s));
  wf_fresh : Forall (fun t => (handle t < nextHandle s)%nat) (timers s);
  wf_timers : Forall timerOk (timers s);
  wf_check : match checkInterval s with
             | Some h => active h s = true
             | None => True
             end
}.

(** Whether the smoothed lag is above the lag-event threshold after each
    of the ticks of timer [h] at the times [nows]. *)
Fixpoint staysAbove (h : nat) (nows : list Z) (s : state) : bool :=
  match nows with
  | [] => true
  | now :: nows =>
      let s' := fst (step (Tick h now) s) in
      gtb (currentLag s') (lagEventThreshold s') && staysAbove h nows s'
  end.

Definition isInterval (c : call) : bool :=
  match c with
  | Interval _ => true
  | _ => false
  end.

(** No lag listener was ever registered: the threshold is still -1 and no
    timer has counted anything. *)
Definition unarmed (s : state) : Prop :=
  lagEventThreshold s = ofZ (-1)
  /\ Forall (fun t => isLagging t = false /\ lagTicks t = 0%Z) (timers s).

(** Thresholds under which the first branch of the callback is never
    taken: -1, and [NaN], above which nothing is. *)
Definition lagEventsOff (n : number) : Prop :=
  strictEq n (ofZ (-1)) = true \/ n = NaN.

(** At most one timer is active, and it is the one [checkInterval]
    holds. *)
Definition soleTimer (s : state) : Prop :=
  (timers s = [] /\ checkInterval s = None)
  \/ exists t, timers s = [t] /\ checkInterval s = Some (handle t).

(** Shut down with nothing left running. *)
Definition stopped (s : state) : Prop :=
  timers s = [] /\ checkInterval s = None /\ currentLag s = ofZ 0.

(** * Properties *)

(** A truthy argument that is not a number makes every setter throw. *)
Ltac not_a_number v :=
  destruct v; cbn in *; try discriminate; eexists; reflexivity.

(** ** Comparisons of rationals *)

Lemma Qltb_lt (x y : Q) : Qltb x y = true <-> x < y.
Proof.
  unfold Qltb. rewrite negb_true_iff. split; intro H.
  - apply Qnot_le_lt. intro L. apply Qle_bool_iff in L. congruence.
  - destruct (Qle_bool y x) eqn:E; [|reflexivity].
    apply Qle_bool_iff in E. exfalso. exact (Qlt_not_le _ _ H E).
Qed.

Lemma Qltb_ge (x y : Q) : Qltb x y = false <-> y <= x.
Proof.
  unfold Qltb. rewrite negb_false_iff. apply Qle_bool_iff.
Qed.

Lemma isZero_false (q : Q) : ~ q == 0 -> isZero q = false.
Proof.
  intro N. unfold isZero. destruct (Qeq_bool q 0) eqn:E; [|reflexivity].
  apply Qeq_bool_iff in E. contradiction.
Qed.

Lemma isZero_true (q : Q) : q == 0 -> isZero q = true.
Proof. intro E. unfold isZero. apply Qeq_bool_iff. exact E. Qed.

(** Below a quotient by a positive number. *)
Lemma Qlt_div_iff (r x h : Q) : 0 < h -> (r < x / h <-> r * h < x).
Proof.
  intro Hh. split; intro H.
  - apply (Qmult_lt_r _ _ h Hh) in H.
    assert (E : x / h * h == x) by (field; lra).
    rewrite E in H. exact H.
  - apply Qlt_shift_div_l; assumption.
Qed.

(** ** The busy decision *)

(** With [currentLag] at zero no draw is below [pctToBlock], whatever the
    high-water mark holds. *)
Lemma toobusy_idle (random : Q) (s : state) :
  currentLag s = ofZ 0 -> 0 <= random -> toobusy random s = false.
Proof.
  intros Hc Hr. unfold toobusy. rewrite Hc.
  destruct (highWater s) as [| | |h]; try reflexivity.
  cbn [ofZ sub neg add div].
  destruct (isZero h) eqn:Z.
  - unfold signedInf. rewrite isZero_true; [reflexivity|].
    apply Qeq_bool_iff in Z. change (inject_Z 0) with 0. lra.
  - cbn [ltb]. apply Qltb_ge.
    assert (N : ~ h == 0) by (apply Qeq_bool_neq; exact Z).
    assert (E : (inject_Z 0 + - h) / h == - (1)).
    { change (inject_Z 0) with 0. field. exact N. }
    rewrite E. lra.
Qed.

(** C1: with a high-water mark of at least 10 and a draw in [0,1),
    [toobusy] compares the draw with
    [(currentLag - highWater) / highWater]: it answers false when the lag is
    at most the high-water mark, true when it is at least twice the mark,
    and in between it is true exactly for the draws below a bound that grows
    linearly from 0 to 1. *)
Theorem toobusy_decision (s : state) (random h c : Q) :
  highWater s = Fin h -> currentLag s = Fin c ->
  10 <= h -> 0 <= random < 1 ->
  toobusy random s = ltb (Fin random) (Fin ((c - h) / h))
  /\ (c <= h -> toobusy random s = false)
  /\ (2 * h <= c -> toobusy random s = true)
  /\ (toobusy random s = true <-> random < (c - h) / h)
  /\ (h <= c <= 2 * h -> 0 <= (c - h) / h <= 1).
Proof.
  intros Hh Hc Hmin [Hr0 Hr1].
  assert (Hpos : 0 < h) by lra.
  assert (E : toobusy random s = ltb (Fin random) (Fin ((c - h) / h))).
  { unfold toobusy. rewrite Hh, Hc. cbn [sub neg add div].
    rewrite isZero_false by lra. reflexivity. }
  rewrite E. cbn [ltb].
  split; [reflexivity|].
  split; [|split; [|split]].
  - intro L. apply Qltb_ge. apply Qle_shift_div_r; [exact Hpos|].
    assert (B : 0 <= random * h) by (apply Qmult_le_0_compat; lra).
    lra.
  - intro L. apply Qltb_lt. apply Qlt_div_iff; [exact Hpos|].
    assert (B : random * h < 1 * h) by (apply Qmult_lt_r; assumption).
    lra.
  - apply Qltb_lt.
  - intros [L1 L2]. split.
    + apply Qle_shift_div_l; [exact Hpos|]. lra.
    + apply Qle_shift_div_r; [exact Hpos|]. lra.
Qed.

(** The default configuration with a lag of 105 ms and the draw 1/4. *)
Lemma toobusy_decision_witness :
  let s := set_currentLag (ofZ 105) loaded in
  toobusy (1 # 4) s = ltb (Fin (1 # 4)) (Fin ((105 - 70) / 70))
  /\ (105 <= 70 -> toobusy (1 # 4) s = false)
  /\ (2 * 70 <= 105 -> toobusy (1 # 4) s = true)
  /\ (toobusy (1 # 4) s = true <-> 1 # 4 < (105 - 70) / 70)
  /\ (70 <= 105 <= 2 * 70 -> 0 <= (105 - 70) / 70 <= 1).
Proof.
  apply (toobusy_decision (set_currentLag (ofZ 105) loaded)
           (random := 1 # 4) (h := 70) (c := 105)).
  - reflexivity.
  - reflexivity.
  - lra.
  - lra.
Defined.

(** ** The setters *)

(** Rounding against an integer bound: [Math.round(q) < k] exactly when
    [q] is below [k - 1/2]. *)
Lemma round_below (q : Q) (k : Z) :
  q < inject_Z k - (1 # 2) -> ltb (Math_round (Fin q)) (ofZ k) = true.
Proof.
  intro H. cbn [Math_round ofZ ltb]. apply Qltb_lt.
  pose proof (Qfloor_le (q + (1 # 2))) as F. lra.
Qed.

Lemma round_not_below (q : Q) (k : Z) :
  inject_Z k - (1 # 2) <= q -> ltb (Math_round (Fin q)) (ofZ k) = false.
Proof.
  intro H. cbn [Math_round ofZ ltb]. apply Qltb_ge.
  rewrite <- Zle_Qle. rewrite <- (Qfloor_Z k).
  apply Qfloor_resp_le. lra.
Qed.

Lemma round_isInteger (q : Q) : isInteger (Math_round (Fin q)) = true.
Proof.
  cbn [Math_round ofZ isInteger]. rewrite Qfloor_Z. apply Qeq_bool_refl.
Qed.

(** A falsy argument turns a setter into a read of the stored value. *)
Lemma interval_reads (v : value) (s : state) :
  toBoolean v = false -> toobusy_interval v s = (Return (interval s), s).
Proof. intro F. unfold toobusy_interval. rewrite F. reflexivity. Qed.

Lemma maxLag_reads (v : value) (s : state) :
  toBoolean v = false -> toobusy_maxLag v s = (Return (highWater s), s).
Proof. intro F. unfold toobusy_maxLag. rewrite F. reflexivity. Qed.

Lemma consecutiveLags_reads (v : value) (s : state) :
  toBoolean v = false ->
  toobusy_consecutiveLags v s = (Return (successiveLags s), s).
Proof. intro F. unfold toobusy_consecutiveLags. rewrite F. reflexivity. Qed.

Lemma smoothingFactor_reads (v : value) (s : state) :
  toBoolean v = false ->
  toobusy_smoothingFactor v s = (Return (smoothingFactor s), s).
Proof. intro F. unfold toobusy_smoothingFactor. rewrite F. reflexivity. Qed.

(** C10: called with a falsy argument — 0, NaN, false, null, undefined or
    the empty string among them — each of the four setters returns the
    stored value, throws nothing and leaves the state as it was. *)
Theorem falsy_argument_reads (v : value) (s : state) :
  toBoolean v = false ->
  toobusy_interval v s = (Return (interval s), s)
  /\ toobusy_maxLag v s = (Return (highWater s), s)
  /\ toobusy_consecutiveLags v s = (Return (successiveLags s), s)
  /\ toobusy_smoothingFactor v s = (Return (smoothingFactor s), s)
  /\ Forall (fun a => toBoolean a = false)
       [VNumber (ofZ 0); VNumber NaN; VBoolean false; VNull; VUndefined;
        VString ""].
Proof.
  intro F.
  split; [apply interval_reads; exact F|].
  split; [apply maxLag_reads; exact F|].
  split; [apply consecutiveLags_reads; exact F|].
  split; [apply smoothingFactor_reads; exact F|].
  repeat constructor.
Qed.

Lemma falsy_argument_reads_witness :
  toobusy_interval (VNumber (ofZ 0)) loaded = (Return (ofZ 500), loaded)
  /\ toobusy_maxLag (VNumber (ofZ 0)) loaded = (Return (ofZ 70), loaded)
  /\ toobusy_consecutiveLags (VNumber (ofZ 0)) loaded
     = (Return (ofZ 1), loaded)
  /\ toobusy_smoothingFactor (VNumber (ofZ 0)) loaded
     = (Return (Fin (1 # 3)), loaded)
  /\ Forall (fun a => toBoolean a = false)
       [VNumber (ofZ 0); VNumber NaN; VBoolean false; VNull; VUndefined;
        VString ""].
Proof.
  apply (falsy_argument_reads (VNumber (ofZ 0)) loaded). reflexivity.
Defined.

(** C5, as stated, fails: the setter called with 0 throws nothing, and
    neither does it for [null], which is not a number. *)
Lemma smoothingFactor_zero_does_not_throw :
  threw (fst (toobusy_smoothingFactor (VNumber (ofZ 0)) loaded)) = false
  /\ isNumber VNull = false
  /\ threw (fst (toobusy_smoothingFactor VNull loaded)) = false.
Proof. repeat split. Qed.

(** C5, amended: 1.5, any number below 0 or above 1, and any truthy
    argument that is not a number make the smoothing-factor setter throw
    with the state untouched; 0 and the other falsy arguments throw nothing
    and return the stored factor, which stays; 0.5, like every factor in
    (0,1], is stored and returned. *)
Theorem smoothingFactor_validation (s : state) :
  (exists m, toobusy_smoothingFactor (VNumber (Fin (3 # 2))) s = (Throw m, s))
  /\ (forall q, q < 0 \/ 1 < q ->
      exists m, toobusy_smoothingFactor (VNumber (Fin q)) s = (Throw m, s))
  /\ (forall v, toBoolean v = true -> isNumber v = false ->
      exists m, toobusy_smoothingFactor v s = (Throw m, s))
  /\ (forall v, toBoolean v = false ->
      toobusy_smoothingFactor v s = (Return (smoothingFactor s), s))
  /\ toobusy_smoothingFactor (VNumber (ofZ 0)) s
     = (Return (smoothingFactor s), s)
  /\ (forall q, 0 < q <= 1 ->
      toobusy_smoothingFactor (VNumber (Fin q)) s
      = (Return (Fin q), set_smoothingFactor (Fin q) s))
  /\ toobusy_smoothingFactor (VNumber (Fin (1 # 2))) s
     = (Return (Fin (1 # 2)), set_smoothingFactor (Fin (1 # 2)) s).
Proof.
  assert (Out : forall q, q < 0 \/ 1 < q ->
      exists m, toobusy_smoothingFactor (VNumber (Fin q)) s = (Throw m, s)).
  { intros q Hq. unfold toobusy_smoothingFactor.
    cbn [toBoolean truthy]. rewrite isZero_false by lra. cbn [negb].
    assert (B : leb (Fin q) (ofZ 0) || gtb (Fin q) (ofZ 1) = true).
    { apply orb_true_iff. cbn [leb gtb ltb ofZ]. destruct Hq as [L|L].
      - left. apply Qle_bool_iff. change (inject_Z 0) with 0. lra.
      - right. apply Qltb_lt. change (inject_Z 1) with 1. lra. }
    rewrite B. eexists. reflexivity. }
  assert (In01 : forall q, 0 < q <= 1 ->
      toobusy_smoothingFactor (VNumber (Fin q)) s
      = (Return (Fin q), set_smoothingFactor (Fin q) s)).
  { intros q [L U]. unfold toobusy_smoothingFactor.
    cbn [toBoolean truthy]. rewrite isZero_false by lra. cbn [negb].
    assert (B : leb (Fin q) (ofZ 0) || gtb (Fin q) (ofZ 1) = false).
    { apply orb_false_iff. cbn [leb gtb ltb ofZ]. split.
      - destruct (Qle_bool q (inject_Z 0)) eqn:E; [|reflexivity].
        apply Qle_bool_iff in E. change (inject_Z 0) with 0 in E. lra.
      - apply Qltb_ge. change (inject_Z 1) with 1. exact U. }
    rewrite B. reflexivity. }
  split; [apply Out; right; lra|].
  split; [exact Out|].
  split; [intros v T N; unfold toobusy_smoothingFactor; rewrite T;
          not_a_number v|].
  split; [intros v F; apply smoothingFactor_reads; exact F|].
  split; [reflexivity|].
  split; [exact In01|].
  apply In01. lra.
Qed.

Lemma smoothingFactor_validation_witness :
  exists m, toobusy_smoothingFactor (VString "fast") loaded = (Throw m, loaded).
Proof.
  apply (smoothingFactor_validation loaded); reflexivity.
Defined.

(** C6, as stated, fails: [undefined] is not a number and 15.5 is below 16,
    yet the setter throws for neither; 15.5 is stored as 16. *)
Lemma interval_undefined_and_half_do_not_throw :
  isNumber VUndefined = false
  /\ threw (fst (toobusy_interval VUndefined loaded)) = false
  /\ (31 # 2) < 16
  /\ fst (toobusy_interval (VNumber (Fin (31 # 2))) loaded) = Return (ofZ 16).
Proof. repeat split. Qed.

(** C6, amended: the sample-interval setter throws, with the state
    untouched, for a truthy argument that is not a number and for a number
    other than 0 that rounds below 16, that is one below 15.5; it throws for
    no number from 15.5 up and for no falsy argument, which only reads the
    interval; called with 16 it returns 16, stores it and puts the current
    lag back to 0. *)
Theorem interval_validation (s : state) :
  (forall v, toBoolean v = true -> isNumber v = false ->
      exists m, toobusy_interval v s = (Throw m, s))
  /\ (forall q, ~ q == 0 -> q < 31 # 2 ->
      exists m, toobusy_interval (VNumber (Fin q)) s = (Throw m, s))
  /\ (forall q, 31 # 2 <= q ->
      threw (fst (toobusy_interval (VNumber (Fin q)) s)) = false)
  /\ (forall v, toBoolean v = false ->
      toobusy_interval v s = (Return (interval s), s))
  /\ fst (toobusy_interval (VNumber (ofZ 16)) s) = Return (ofZ 16)
  /\ interval (snd (toobusy_interval (VNumber (ofZ 16)) s)) = ofZ 16
  /\ currentLag (snd (toobusy_interval (VNumber (ofZ 16)) s)) = ofZ 0.
Proof.
  split; [intros v T N; unfold toobusy_interval; rewrite T; not_a_number v|].
  split.
  { intros q NZ L. unfold toobusy_interval.
    cbn [toBoolean truthy]. rewrite (isZero_false NZ). cbn [negb].
    rewrite round_below; [eexists; reflexivity|].
    change (inject_Z 16) with 16. lra. }
  split.
  { intros q L. unfold toobusy_interval.
    cbn [toBoolean truthy]. rewrite isZero_false by lra. cbn [negb].
    rewrite round_not_below; [reflexivity|].
    change (inject_Z 16) with 16. lra. }
  split; [intros v F; apply interval_reads; exact F|].
  repeat split.
Qed.

Lemma interval_validation_witness :
  exists m, toobusy_interval (VNumber (ofZ 15)) loaded = (Throw m, loaded).
Proof.
  apply (interval_validation loaded); [discriminate | reflexivity].
Defined.

(** C8, as stated, fails: the setter called with -5 throws nothing and
    stores -5, which is not at least 1, and the state so changed was
    reached by loading the module and making that one call. *)
Lemma consecutiveLags_accepts_minus_five :
  threw (fst (toobusy_consecutiveLags (VNumber (ofZ (-5))) loaded)) = false
  /\ successiveLags (snd (toobusy_consecutiveLags (VNumber (ofZ (-5))) loaded))
     = ofZ (-5)
  /\ leb (ofZ 1) (ofZ (-5)) = false
  /\ reachable (snd (toobusy_consecutiveLags (VNumber (ofZ (-5))) loaded)).
Proof.
  repeat split. exists [ConsecutiveLags (VNumber (ofZ (-5)))]. reflexivity.
Qed.

(** C8, amended: the consecutive-lag-threshold setter throws exactly for a
    truthy argument that is not a number, leaving the state untouched; when
    it does not throw, either the argument was falsy and nothing changed, or
    it was a number [n] and [Math.round(n)] is now stored and returned, an
    integer whenever [n] is finite, with no lower bound. *)
Theorem consecutiveLags_stores_rounded (s : state) (v : value) :
  (threw (fst (toobusy_consecutiveLags v s)) = true
   <-> toBoolean v = true /\ isNumber v = false)
  /\ (threw (fst (toobusy_consecutiveLags v s)) = true ->
      snd (toobusy_consecutiveLags v s) = s)
  /\ (threw (fst (toobusy_consecutiveLags v s)) = false ->
      (toBoolean v = false /\ toobusy_consecutiveLags v s
                              = (Return (successiveLags s), s))
      \/ (exists n, v = VNumber n
          /\ toobusy_consecutiveLags v s
             = (Return (Math_round n), set_successiveLags (Math_round n) s)
          /\ (forall q, n = Fin q ->
              isInteger (successiveLags (snd (toobusy_consecutiveLags v s)))
              = true))).
Proof.
  unfold toobusy_consecutiveLags.
  destruct (toBoolean v) eqn:T; cbn [negb].
  - destruct v; cbn [fst snd threw isNumber];
      try (split; [split; [intros _; split; reflexivity | reflexivity]|];
           split; [reflexivity | discriminate]).
    split; [split; [discriminate | intros [_ H]; discriminate]|].
    split; [discriminate|].
    intros _. right. exists n. split; [reflexivity|].
    split; [reflexivity|].
    intros q ->. apply round_isInteger.
  - cbn [fst snd threw].
    split; [split; [discriminate | intros [H _]; discriminate]|].
    split; [discriminate|].
    intros _. left. split; reflexivity.
Qed.

Lemma consecutiveLags_stores_rounded_witness :
  (toBoolean (VNumber (Fin (5 # 2))) = false
   /\ toobusy_consecutiveLags (VNumber (Fin (5 # 2))) loaded
      = (Return (successiveLags loaded), loaded))
  \/ (exists n, VNumber (Fin (5 # 2)) = VNumber n
      /\ toobusy_consecutiveLags (VNumber (Fin (5 # 2))) loaded
         = (Return (Math_round n), set_successiveLags (Math_round n) loaded)
      /\ (forall q, n = Fin q ->
          isInteger (successiveLags
                       (snd (toobusy_consecutiveLags (VNumber (Fin (5 # 2)))
                                                     loaded)))
          = true)).
Proof.
  apply (consecutiveLags_stores_rounded loaded (VNumber (Fin (5 # 2)))).
  reflexivity.
Defined.

(** ** Lag subscriptions *)

Lemma maxLag_keeps_lagEventThreshold (v : value) (s : state) :
  lagEventThreshold (snd (toobusy_maxLag v s)) = lagEventThreshold s.
Proof.
  unfold toobusy_maxLag.
  destruct (negb (toBoolean v)); [reflexivity|].
  destruct v; try reflexivity.
  destruct (ltb (Math_round n) (ofZ 10)); reflexivity.
Qed.

Lemma onLag_result (fn : listener) (threshold : value) (s : state) :
  toobusy_onLag fn threshold s
  = (Return tt,
     set_lagListeners (lagListeners s ++ [fn])
       (set_lagEventThreshold
          (match threshold with VNumber n => n | _ => highWater s end) s)).
Proof. destruct threshold; reflexivity. Qed.

Lemma tick_keeps_lagEventThreshold (h : nat) (now : Z) (s s' : state)
      (out : list emission) :
  tick h now s = Some (s', out) -> lagEventThreshold s' = lagEventThreshold s.
Proof.
  unfold tick. destruct (find _ (timers s)) as [t|]; [|discriminate].
  destruct (lagCheck _ t) as [t' o]. intro E. inversion E. reflexivity.
Qed.

Lemma step_keeps_lagEventThreshold (c : call) (s : state) :
  isOnLag c = false ->
  lagEventThreshold (fst (step c s)) = lagEventThreshold s.
Proof.
  intro N.
  destruct c as [r|v| |v|v|v| | |fn v|fn|h now];
    cbn [step fst]; try reflexivity; try discriminate.
  - unfold toobusy_interval. destruct (negb (toBoolean v)); [reflexivity|].
    destruct v; try reflexivity.
    destruct (ltb (Math_round n) (ofZ 16)); reflexivity.
  - apply maxLag_keeps_lagEventThreshold.
  - unfold toobusy_consecutiveLags.
    destruct (negb (toBoolean v)); [reflexivity|].
    destruct v; reflexivity.
  - unfold toobusy_smoothingFactor.
    destruct (negb (toBoolean v)); [reflexivity|].
    destruct v; try reflexivity.
    destruct (leb n (ofZ 0) || gtb n (ofZ 1)); reflexivity.
  - unfold toobusy_shutdown, clearInterval. cbn.
    destruct (checkInterval s); reflexivity.
  - destruct (tick h now s) as [[s' out]|] eqn:E; [|reflexivity].
    exact (tick_keeps_lagEventThreshold _ _ _ E).
Qed.

(** C9: [onLag] given a number makes it the one [lagEventThreshold];
    given anything else it stores the high-water mark of that moment.  Every
    registration overwrites the threshold of the ones before while all
    listeners stay registered, and no later call but another [onLag] — a
    change of the high-water mark least of all — touches what was stored. *)
Theorem onLag_threshold (fn : listener) (threshold : value) (s : state) :
  fst (toobusy_onLag fn threshold s) = Return tt
  /\ lagListeners (snd (toobusy_onLag fn threshold s)) = lagListeners s ++ [fn]
  /\ lagEventThreshold (snd (toobusy_onLag fn threshold s))
     = match threshold with
       | VNumber n => n
       | _ => highWater s
       end
  /\ (forall newLag,
      lagEventThreshold
        (snd (toobusy_maxLag newLag (snd (toobusy_onLag fn threshold s))))
      = lagEventThreshold (snd (toobusy_onLag fn threshold s)))
  /\ (forall c,
      if isOnLag c then True
      else lagEventThreshold (fst (step c (snd (toobusy_onLag fn threshold s))))
           = lagEventThreshold (snd (toobusy_onLag fn threshold s)))
  /\ (forall fn2 n2,
      let s2 := snd (toobusy_onLag fn2 (VNumber n2)
                                   (snd (toobusy_onLag fn threshold s))) in
      lagEventThreshold s2 = n2
      /\ lagListeners s2 = lagListeners s ++ [fn; fn2]).
Proof.
  rewrite onLag_result. cbn [fst snd].
  split; [reflexivity|].
  split; [reflexivity|].
  split; [reflexivity|].
  split; [intro newLag; apply maxLag_keeps_lagEventThreshold|].
  split.
  - intro c. destruct (isOnLag c) eqn:E; [exact I|].
    apply step_keeps_lagEventThreshold. exact E.
  - intros fn2 n2. rewrite onLag_result. cbn.
    split; [reflexivity|]. rewrite <- app_assoc. reflexivity.
Qed.

(** ** The sampler and its timers *)

Lemma after_cons (c : call) (cs : list call) (s : state) :
  after (c :: cs) s = after cs (fst (step c s)).
Proof.
  unfold after. cbn [run].
  destruct (step c s) as [s1 o1]. cbn [fst].
  destruct (run cs s1) as [s2 o2]. reflexivity.
Qed.

Lemma lagCheck_handle (s : state) (t : timer) :
  handle (fst (lagCheck s t)) = handle t.
Proof.
  unfold lagCheck.
  destruct (_ && _ && _); [destruct (gtb _ _)|]; reflexivity.
Qed.

Lemma putTimer_handles (t : timer) (ts : list timer) :
  map handle (putTimer t ts) = map handle ts.
Proof.
  unfold putTimer. rewrite map_map. apply map_ext_in. intros u _.
  destruct (handle u =? handle t)%nat eqn:E; [|reflexivity].
  apply Nat.eqb_eq in E. symmetry. exact E.
Qed.

Lemma active_find (h : nat) (s : state) :
  active h s = true ->
  exists t, find (fun t => (handle t =? h)%nat) (timers s) = Some t.
Proof.
  unfold active. induction (timers s) as [|u ts IH]; cbn; [discriminate|].
  intro A. destruct (handle u =? h)%nat eqn:E; [eexists; reflexivity|].
  apply orb_true_iff in A. destruct A as [A|A]; [|exact (IH A)].
  rewrite Nat.eqb_sym in A. congruence.
Qed.

(** What one firing does to the file-level variables. *)
Lemma tick_fires (h : nat) (now : Z) (s : state) :
  active h s = true ->
  exists s' out,
    tick h now s = Some (s', out)
    /\ currentLag s'
       = dampen (smoothingFactor s)
                (rawLag (ofZ now) (lastTime s) (interval s)) (currentLag s)
    /\ lastTime s' = Some (ofZ now)
    /\ interval s' = interval s
    /\ smoothingFactor s' = smoothingFactor s
    /\ active h s' = true.
Proof.
  intro A. destruct (active_find _ _ A) as [t F].
  unfold tick. rewrite F.
  match goal with |- context [lagCheck ?st t] =>
    pose proof (lagCheck_handle st t) as Hh;
    destruct (lagCheck st t) as [t' out] end.
  eexists. eexists. split; [reflexivity|].
  unfold active, set_timers, set_lastTime, set_currentLag.
  cbn [currentLag lastTime interval smoothingFactor timers].
  repeat split.
  rewrite putTimer_handles. exact A.
Qed.

Lemma rawLag_finite (now last : Z) (every : Q) :
  exists l, rawLag (ofZ now) (Some (ofZ last)) (Fin every) = Fin l
            /\ l == Qmax 0 (inject_Z now - inject_Z last - every).
Proof.
  unfold rawLag. cbn [ofZ sub neg add Math_max ltb].
  set (x := inject_Z now + - inject_Z last + - every).
  assert (X : x == inject_Z now - inject_Z last - every)
    by (unfold x; ring).
  destruct (Q.max_spec 0 (inject_Z now - inject_Z last - every))
    as [[L M]|[L M]].
  - assert (B : Qltb (inject_Z 0) x = true)
      by (apply Qltb_lt; change (inject_Z 0) with 0; lra).
    rewrite B. exists x. split; [reflexivity|].
    apply Qeq_trans with (1 := X). apply Qeq_sym. exact M.
  - assert (B : Qltb (inject_Z 0) x = false)
      by (apply Qltb_ge; change (inject_Z 0) with 0; lra).
    rewrite B. exists (inject_Z 0). split; [reflexivity|].
    apply Qeq_sym. exact M.
Qed.

Lemma dampen_finite (a l p : Q) :
  exists q, dampen (Fin a) (Fin l) (Fin p) = Fin q
            /\ q == a * l + (1 - a) * p.
Proof.
  unfold dampen, orElse. cbn [ofZ sub neg add mul truthy].
  destruct (isZero _) eqn:Z; cbn [negb].
  - exists (inject_Z 0). split; [reflexivity|].
    apply Qeq_bool_iff in Z. change (inject_Z 0) with 0.
    change (inject_Z 1) with 1 in Z. rewrite <- Z. ring.
  - eexists. split; [reflexivity|]. change (inject_Z 1) with 1. ring.
Qed.

(** When the sum is not a number — as on the first tick, [lastTime] being
    [undefined] — the new [currentLag] is 0. *)
Lemma dampen_NaN (factor lag current : number) :
  add (mul factor lag) (mul (sub (ofZ 1) factor) current) = NaN ->
  dampen factor lag current = ofZ 0.
Proof. intro E. unfold dampen. rewrite E. reflexivity. Qed.

Lemma ticks_smooth (h : nat) (alpha every : Q) (nows : list Z) :
  forall (s : state) (last : Z) (p p' : Q),
    active h s = true ->
    smoothingFactor s = Fin alpha ->
    interval s = Fin every ->
    lastTime s = Some (ofZ last) ->
    currentLag s = Fin p -> p == p' ->
    exists q,
      currentLag (after (map (Tick h) nows) s) = Fin q
      /\ q == smoothing_spec alpha (rawSamples_spec every last nows) p'.
Proof.
  induction nows as [|now nows IH]; intros s last p p' A Hf Hi Hl Hc Hp.
  - exists p. split; [exact Hc | exact Hp].
  - cbn [map]. rewrite after_cons. cbn [step].
    destruct (@tick_fires h now s A) as (s' & out & T & C & L & I & F & A').
    rewrite T. cbn [fst].
    rewrite Hf, Hi, Hl, Hc in C.
    destruct (rawLag_finite now last every) as (l & R & Rl).
    rewrite R in C.
    destruct (dampen_finite alpha l p) as (q & D & Dq).
    rewrite D in C.
    change (smoothing_spec alpha
              (rawSamples_spec every last (now :: nows)) p')
      with (smoothing_spec alpha (rawSamples_spec every now nows)
              (alpha * Qmax 0 (inject_Z now - inject_Z last - every)
               + (1 - alpha) * p')).
    apply (IH s' now q); try assumption; try congruence.
    rewrite Dq, Rl, Hp. reflexivity.
Qed.

Lemma first_tick_is_zero (h : nat) (now : Z) (s : state) :
  active h s = true -> lastTime s = None ->
  currentLag (after [Tick h now] s) = ofZ 0.
Proof.
  intros A L. rewrite after_cons. cbn [step after run fst].
  destruct (@tick_fires h now s A) as (s' & out & T & C & _).
  rewrite T. cbn [fst]. rewrite C, L. apply dampen_NaN.
  unfold rawLag. cbn [ofZ sub neg add Math_max].
  destruct (interval s), (smoothingFactor s); reflexivity.
Qed.

(** C4: from a current lag of 0, ticks at the times [nows] leave in
    [currentLag] the value of the recurrence
    [next = alpha * l + (1 - alpha) * prev] run over the raw samples
    [max(0, elapsed - interval)], for the stored factor [alpha] whatever it
    is, so for every one in (0,1]; and where the sum is not a number, as on
    the first tick after loading, 0 is stored instead. *)
Theorem smoothing_follows_recurrence
        (s : state) (h : nat) (alpha every : Q) (last : Z) (nows : list Z) :
  active h s = true ->
  smoothingFactor s = Fin alpha ->
  interval s = Fin every ->
  lastTime s = Some (ofZ last) ->
  currentLag s = ofZ 0 ->
  same (currentLag (after (map (Tick h) nows) s))
       (Fin (smoothing_spec alpha (rawSamples_spec every last nows) 0))
  /\ (forall factor lag current,
      add (mul factor lag) (mul (sub (ofZ 1) factor) current) = NaN ->
      dampen factor lag current = ofZ 0)
  /\ (forall s0 now,
      active h s0 = true -> lastTime s0 = None ->
      currentLag (after [Tick h now] s0) = ofZ 0).
Proof.
  intros A Hf Hi Hl Hc.
  split; [|split].
  - destruct (@ticks_smooth h alpha every nows s last (inject_Z 0) 0
                A Hf Hi Hl Hc (Qeq_refl 0)) as (q & C & E).
    rewrite C. exact E.
  - exact dampen_NaN.
  - intros s0 now A0 L0. apply first_tick_is_zero; assumption.
Qed.

(** After the first tick at 1000 ms, ticks at 2100 and 2650 ms with the
    default factor 1/3 and interval 500 ms: raw samples 600 and 50. *)
Lemma smoothing_follows_recurrence_witness :
  same (currentLag
          (after (map (Tick 0) [2100; 2650]%Z) (after [Tick 0 1000] loaded)))
       (Fin (smoothing_spec (1 # 3)
               (rawSamples_spec 500 1000 [2100; 2650]%Z) 0))
  /\ (forall factor lag current,
      add (mul factor lag) (mul (sub (ofZ 1) factor) current) = NaN ->
      dampen factor lag current = ofZ 0)
  /\ (forall s0 now,
      active 0 s0 = true -> lastTime s0 = None ->
      currentLag (after [Tick 0 now] s0) = ofZ 0).
Proof.
  apply (@smoothing_follows_recurrence
           (after [Tick 0 1000] loaded) 0%nat (1 # 3) 500 1000%Z
           [2100; 2650]%Z); reflexivity.
Defined.

(** A successful call of the interval setter adds a timer and stops
    none. *)
Lemma interval_keeps_timers (q : Q) (s : state) :
  31 # 2 <= q ->
  timers (snd (toobusy_interval (VNumber (Fin q)) s))
  = timers s ++ [Timer (nextHandle s) (Math_round (Fin q)) false 0].
Proof.
  intro L. unfold toobusy_interval.
  cbn [toBoolean truthy]. rewrite isZero_false by lra. cbn [negb].
  rewrite round_not_below; [reflexivity|].
  change (inject_Z 16) with 16. lra.
Qed.

(** C3: the code does not do this.  After loading, [interval(100)]
    succeeds and starts a timer at 100 ms, but the one at 500 ms that
    loading started is not cancelled: both are active and both go on
    firing, while [checkInterval] only knows the new one. *)
Theorem interval_leaves_old_timer_running :
  timers loaded = [Timer 0 (ofZ 500) false 0]
  /\ fst (toobusy_interval (VNumber (ofZ 100)) loaded) = Return (ofZ 100)
  /\ timers (snd (toobusy_interval (VNumber (ofZ 100)) loaded))
     = [Timer 0 (ofZ 500) false 0; Timer 1 (ofZ 100) false 0]
  /\ checkInterval (snd (toobusy_interval (VNumber (ofZ 100)) loaded))
     = Some 1%nat
  /\ active 0 (snd (toobusy_interval (VNumber (ofZ 100)) loaded)) = true
  /\ active 1 (snd (toobusy_interval (VNumber (ofZ 100)) loaded)) = true
  /\ (forall now,
      tick 0 now (snd (toobusy_interval (VNumber (ofZ 100)) loaded)) <> None).
Proof.
  repeat (split; [reflexivity|]).
  intro now. unfold tick. cbn [find timers snd toobusy_interval].
  vm_compute. discriminate.
Qed.

(** ** Shutdown *)

(** X8: in every state [shutdown()] leaves [started()] false and the lag
    at 0, so that [toobusy()] is false for every draw that is not negative;
    it removes the lag listeners, keeps the easing listeners, and a second
    [shutdown()] changes nothing more. *)
Lemma shutdown_effects (s : state) :
  toobusy_started (toobusy_shutdown s) = false
  /\ toobusy_lag (toobusy_shutdown s) = ofZ 0
  /\ (forall random, 0 <= random ->
      toobusy random (toobusy_shutdown s) = false)
  /\ lagListeners (toobusy_shutdown s) = []
  /\ easingListeners (toobusy_shutdown s) = easingListeners s
  /\ toobusy_shutdown (toobusy_shutdown s) = toobusy_shutdown s.
Proof.
  unfold toobusy_shutdown, clearInterval.
  cbn [checkInterval set_currentLag].
  destruct (checkInterval s) as [n|];
    (split; [reflexivity|]; split; [reflexivity|];
     split; [intros r Hr; apply toobusy_idle; [reflexivity | exact Hr]|];
     split; [reflexivity|]; split; reflexivity).
Qed.

(** The calls that never move [currentLag]: all but a tick. *)
Lemma step_keeps_idle (c : call) (s : state) :
  currentLag s = ofZ 0 ->
  match c with
  | Tick _ _ => True
  | _ => currentLag (fst (step c s)) = ofZ 0
  end.
Proof.
  intro Z.
  destruct c as [r|v| |v|v|v| | |fn v|fn|h now]; cbn [step fst];
    try exact Z; try exact I.
  - unfold toobusy_interval. destruct (negb (toBoolean v)); [exact Z|].
    destruct v; try exact Z.
    destruct (ltb (Math_round n) (ofZ 16)); [exact Z | reflexivity].
  - unfold toobusy_maxLag. destruct (negb (toBoolean v)); [exact Z|].
    destruct v; try exact Z.
    destruct (ltb (Math_round n) (ofZ 10)); exact Z.
  - unfold toobusy_consecutiveLags. destruct (negb (toBoolean v)); [exact Z|].
    destruct v; exact Z.
  - unfold toobusy_smoothingFactor. destruct (negb (toBoolean v)); [exact Z|].
    destruct v; try exact Z.
    destruct (leb n (ofZ 0) || gtb n (ofZ 1)); exact Z.
  - unfold toobusy_shutdown, clearInterval. cbn [checkInterval set_currentLag].
    destruct (checkInterval s); reflexivity.
  - rewrite onLag_result. exact Z.
Qed.

(** When [checkInterval] holds the only active timer, [shutdown()] leaves
    none, and no tick can follow. *)
Lemma shutdown_stops_sole_timer (s : state) (t : timer) :
  timers s = [t] -> checkInterval s = Some (handle t) ->
  timers (toobusy_shutdown s) = []
  /\ forall h now, tick h now (toobusy_shutdown s) = None.
Proof.
  intros Ht Hc.
  assert (E : timers (toobusy_shutdown s) = []).
  { unfold toobusy_shutdown, clearInterval. cbn [checkInterval set_currentLag].
    rewrite Hc. cbn. rewrite Ht. cbn. rewrite Nat.eqb_refl. reflexivity. }
  split; [exact E|].
  intros h now. unfold tick. rewrite E. reflexivity.
Qed.

(** C7: the code does not keep this in every state.  Load the module, set
    the interval to 100 ms and shut down: [started()] is false and the lag
    reads 0, but the 500 ms timer from loading was never cancelled.  It
    fires at 1000 and 1500 ms, punctually, measures 400 ms against the new
    interval, and [toobusy()] answers true for a draw of 0 and of 0.9 though
    nothing restarted the sampling.  The rest of the claim does hold. *)
Theorem shutdown_misses_leaked_timer :
  let s := after [Interval (VNumber (ofZ 100)); Shutdown] loaded in
  let s' := after [Tick 0 1000; Tick 0 1500] s in
  toobusy_started s = false
  /\ toobusy_lag s = ofZ 0
  /\ timers s = [Timer 0 (ofZ 500) false 0]
  /\ toobusy_started s' = false
  /\ currentLag s' = Fin (1200 # 9)
  /\ toobusy 0 s' = true
  /\ toobusy (9 # 10) s' = true.
Proof. vm_compute. repeat split. Qed.

(** ** Lag and easing events *)

(** In the lagging state the else branch is taken whatever the lag: the
    tick count goes down, and from a count of 1 the easing event goes
    out. *)
Lemma lagCheck_while_lagging (s : state) (t : timer) :
  isLagging t = true ->
  lagCheck s t
  = (Timer (handle t) (delay t)
       (if (lagTicks t =? 1)%Z then false else true)
       (if (0 <? lagTicks t)%Z then lagTicks t - 1 else lagTicks t)%Z,
     if (lagTicks t =? 1)%Z
     then [Emit EASING_EVENT (currentLag s) (easingListeners s)]
     else []).
Proof.
  intro L. unfold lagCheck. rewrite L. cbn [Bool.eqb].
  rewrite andb_false_r, andb_true_r.
  destruct (Z.eqb_spec (lagTicks t) 1) as [E|N].
  - rewrite E. reflexivity.
  - assert (B : ((0 <? lagTicks t) && (lagTicks t - 1 =? 0) = false)%Z).
    { apply andb_false_iff. right. apply Z.eqb_neq. lia. }
    rewrite B. reflexivity.
Qed.

(** An easing event leaves [lagCheck] only from the lagging state with a
    tick count of 1; the lag is not asked. *)
Lemma lagCheck_easing_only_from_lagging (s : state) (t : timer) (e : emission) :
  In e (snd (lagCheck s t)) -> event e = EASING_EVENT ->
  isLagging t = true /\ lagTicks t = 1%Z.
Proof.
  unfold lagCheck.
  destruct (_ && _ && Bool.eqb (isLagging t) false).
  - destruct (gtb _ _); cbn [snd In].
    + intros [<-|[]]. discriminate.
    + intros [].
  - cbn [snd].
    destruct ((0 <? lagTicks t)%Z && (lagTicks t - 1 =? 0)%Z && isLagging t)
      eqn:E; [|intros []].
    intros _ _. apply andb_true_iff in E. destruct E as [E L].
    apply andb_true_iff in E. destruct E as [_ E].
    apply Z.eqb_eq in E. split; [exact L | lia].
Qed.

(** C2: the code does not do this.  With the default threshold of one
    consecutive tick and a lag listener registered at 10 ms, the tick at
    2000 ms raises the lag event.  The next tick finds the lag higher
    still, yet because the state is lagging it takes the else branch: the
    tick count is decremented from 1 to 0 and the easing event is emitted,
    the lag above the threshold before and after. *)
Theorem easing_emitted_while_lag_stays_high :
  let s := after [OnLag 1%nat (VNumber (ofZ 10)); OnEasing 2%nat;
                  Tick 0 1000; Tick 0 2000] loaded in
  timers s = [Timer 0 (ofZ 500) true 1]
  /\ gtb (currentLag s) (lagEventThreshold s) = true
  /\ exists s',
      tick 0 3000 s
      = Some (s', [Emit EASING_EVENT (Fin (22500 # 81)) [2%nat]])
      /\ gtb (currentLag s') (lagEventThreshold s') = true
      /\ timers s' = [Timer 0 (ofZ 500) false 0]
      /\ emitted [OnLag 1%nat (VNumber (ofZ 10)); OnEasing 2%nat;
                  Tick 0 1000; Tick 0 2000; Tick 0 3000] loaded
         = [Emit LAG_EVENT (Fin (1500 # 9)) [1%nat];
            Emit EASING_EVENT (Fin (22500 # 81)) [2%nat]].
Proof.
  vm_compute. split; [reflexivity|]. split; [reflexivity|].
  eexists. split; [reflexivity|]. repeat split.
Qed.

(** * Further properties of the module *)

(** ** States reached from loading are well formed *)

(** Stopping timers keeps the handles of the others distinct. *)
Lemma handles_after_stop (keep : timer -> bool) (ts : list timer) :
  NoDup (map handle ts) -> NoDup (map handle (filter keep ts)).
Proof.
  induction ts as [|t ts IH]; intro D; [exact D|].
  cbn [map] in D. apply NoDup_cons_iff in D. destruct D as [Fresh D].
  cbn [filter]. destruct (keep t); [|exact (IH D)].
  cbn [map]. apply NoDup_cons_iff. split; [|exact (IH D)].
  rewrite in_map_iff. intros (u & Hu & Iu).
  apply Fresh. rewrite in_map_iff. exists u.
  rewrite filter_In in Iu. tauto.
Qed.

Lemma Forall_filter {A} (P : A -> Prop) (p : A -> bool) (l : list A) :
  Forall P l -> Forall P (filter p l).
Proof.
  intro F. apply Forall_forall. intros x I. apply filter_In in I.
  rewrite Forall_forall in F. apply F. apply I.
Qed.

Lemma wellFormed_loaded : wellFormed loaded.
Proof.
  constructor; cbn.
  - discriminate.
  - discriminate.
  - split; [reflexivity | discriminate].
  - exists 1%Z. reflexivity.
  - discriminate.
  - exact I.
  - constructor; [intros [] | constructor].
  - constructor; [cbn; lia | constructor].
  - constructor; [|constructor]. split; cbn; [lia | discriminate].
  - reflexivity.
Qed.

Lemma wellFormed_start (s : state) : wellFormed s -> wellFormed (start s).
Proof.
  intros [Hh Hi Hf Hl Hc Ht Hn Hfr Htm Hck].
  constructor; unfold start; cbn; try assumption.
  - rewrite map_app. cbn.
    apply NoDup_app; [exact Hn | constructor; [intros [] | constructor] |].
    intros x Ix [<-|[]]. apply in_map_iff in Ix. destruct Ix as (t & E & It).
    rewrite Forall_forall in Hfr. specialize (Hfr t It). cbv beta in Hfr.
    lia.
  - apply Forall_app. split.
    + eapply Forall_impl; [|exact Hfr]. cbn. intros. lia.
    + constructor; [cbn; lia | constructor].
  - apply Forall_app. split; [exact Htm|].
    constructor; [|constructor]. split; cbn; [lia | discriminate].
  - unfold active. cbn. rewrite map_app, existsb_app. cbn.
    rewrite Nat.eqb_refl. apply orb_true_iff. right. reflexivity.
Qed.

Lemma round_atLeast (n : number) (k : Z) :
  truthy n = true -> ltb (Math_round n) (ofZ k) = false ->
  atLeast k (Math_round n).
Proof.
  destruct n as [| | |q]; cbn; try discriminate; try (intros; exact I).
  intros _ L. apply Qltb_ge in L. exact L.
Qed.

Lemma round_rounded (n : number) : truthy n = true -> rounded (Math_round n).
Proof.
  destruct n as [| | |q]; cbn; try discriminate; try (intros; exact I).
  intros _. eexists. reflexivity.
Qed.

Lemma wellFormed_interval (v : value) (s : state) :
  wellFormed s -> wellFormed (snd (toobusy_interval v s)).
Proof.
  intro W. unfold toobusy_interval.
  destruct (toBoolean v) eqn:T; cbn [negb]; [|exact W].
  destruct v; try exact W.
  destruct (ltb (Math_round n) (ofZ 16)) eqn:L; [exact W|].
  cbn [snd]. apply wellFormed_start.
  destruct W as [Hh Hi Hf Hl Hc Ht Hn Hfr Htm Hck].
  constructor; cbn; try assumption.
  - exact (round_atLeast n 16 T L).
  - discriminate.
Qed.

Lemma wellFormed_maxLag (v : value) (s : state) :
  wellFormed s -> wellFormed (snd (toobusy_maxLag v s)).
Proof.
  intro W. unfold toobusy_maxLag.
  destruct (toBoolean v) eqn:T; cbn [negb]; [|exact W].
  destruct v; try exact W.
  destruct (ltb (Math_round n) (ofZ 10)) eqn:L; [exact W|].
  destruct W as [Hh Hi Hf Hl Hc Ht Hn Hfr Htm Hck].
  constructor; cbn; try assumption.
  exact (round_atLeast n 10 T L).
Qed.

Lemma wellFormed_consecutiveLags (v : value) (s : state) :
  wellFormed s -> wellFormed (snd (toobusy_consecutiveLags v s)).
Proof.
  intro W. unfold toobusy_consecutiveLags.
  destruct (toBoolean v) eqn:T; cbn [negb]; [|exact W].
  destruct v; try exact W.
  destruct W as [Hh Hi Hf Hl Hc Ht Hn Hfr Htm Hck].
  constructor; cbn; try assumption.
  exact (round_rounded n T).
Qed.

Lemma wellFormed_smoothingFactor (v : value) (s : state) :
  wellFormed s -> wellFormed (snd (toobusy_smoothingFactor v s)).
Proof.
  intro W. unfold toobusy_smoothingFactor.
  destruct (toBoolean v) eqn:T; cbn [negb]; [|exact W].
  destruct v; try exact W.
  destruct (leb n (ofZ 0) || gtb n (ofZ 1)) eqn:B; [exact W|].
  apply orb_false_iff in B. destruct B as [B0 B1].
  destruct W as [Hh Hi Hf Hl Hc Ht Hn Hfr Htm Hck].
  constructor; cbn; try assumption.
  destruct n as [| | |q]; cbn [leb gtb ltb ofZ validFactor] in *;
    try discriminate.
  apply Qltb_ge in B1. split; [|exact B1].
  apply Qnot_le_lt. intro L0.
  change 0 with (inject_Z 0) in L0. apply Qle_bool_iff in L0. congruence.
Qed.

Lemma wellFormed_shutdown (s : state) :
  wellFormed s -> wellFormed (toobusy_shutdown s).
Proof.
  intros [Hh Hi Hf Hl Hc Ht Hn Hfr Htm Hck].
  unfold toobusy_shutdown, clearInterval. cbn [checkInterval set_currentLag].
  destruct (checkInterval s) as [n|];
    constructor; cbn; try assumption; try discriminate; try exact I.
  - apply handles_after_stop. exact Hn.
  - apply Forall_filter. exact Hfr.
  - apply Forall_filter. exact Htm.
Qed.

Lemma wellFormed_onLag (fn : listener) (v : value) (s : state) :
  wellFormed s -> wellFormed (snd (toobusy_onLag fn v s)).
Proof.
  intros [Hh Hi Hf Hl Hc Ht Hn Hfr Htm Hck]. rewrite onLag_result.
  constructor; cbn; assumption.
Qed.

Lemma wellFormed_onEasing (fn : listener) (s : state) :
  wellFormed s -> wellFormed (toobusy_onEasing fn s).
Proof.
  intros [Hh Hi Hf Hl Hc Ht Hn Hfr Htm Hck].
  constructor; cbn; assumption.
Qed.

Lemma tick_unfold (h : nat) (now : Z) (s : state) (t : timer) :
  find (fun t => (handle t =? h)%nat) (timers s) = Some t ->
  tick h now s
  = Some (set_timers (putTimer (fst (lagCheck (sampled now s) t)) (timers s))
                     (sampled now s),
          snd (lagCheck (sampled now s) t)).
Proof.
  intro F. unfold tick. rewrite F. fold (sampled now s).
  destruct (lagCheck (sampled now s) t) as [t' out]. reflexivity.
Qed.

Lemma tick_inactive (h : nat) (now : Z) (s : state) :
  find (fun t => (handle t =? h)%nat) (timers s) = None ->
  tick h now s = None.
Proof. intro F. unfold tick. rewrite F. reflexivity. Qed.

Lemma lagCheck_timerOk (s : state) (t : timer) :
  timerOk t -> timerOk (fst (lagCheck s t)).
Proof.
  intros [P L]. unfold lagCheck, timerOk.
  destruct (_ && _ && Bool.eqb (isLagging t) false).
  - clear L.
    destruct (gtb _ _); cbn [fst lagTicks isLagging]; split; intros; lia.
  - cbn [fst lagTicks isLagging].
    destruct (Z.ltb_spec 0 (lagTicks t)) as [G|G]; cbn [andb].
    + destruct (Z.eqb_spec (lagTicks t - 1) 0) as [E|E]; cbn [andb].
      * destruct (isLagging t); split; try lia; discriminate.
      * split; [lia|]. intro T. specialize (L T). lia.
    + split; [lia|]. intro T. specialize (L T). lia.
Qed.

Lemma rawLag_shape (now : Z) (last : option number) (every : number) :
  atLeast 16 every ->
  match last with Some n => exists z, n = ofZ z | None => True end ->
  rawLag (ofZ now) last every = NaN
  \/ exists l, rawLag (ofZ now) last every = Fin l /\ 0 <= l.
Proof.
  intros He Hl. destruct last as [n|].
  - destruct Hl as [z ->]. destruct every as [| | |e]; try contradiction.
    + right. exists 0. split; [reflexivity | lra].
    + right. destruct (rawLag_finite now z e) as (l & R & E).
      exists l. split; [exact R|]. rewrite E. apply Q.le_max_l.
  - left. unfold rawLag. cbn. destruct every; reflexivity.
Qed.

Lemma dampen_nonNegative (factor lag current : number) :
  validFactor factor -> nonNegative current ->
  lag = NaN \/ (exists l, lag = Fin l /\ 0 <= l) ->
  nonNegative (dampen factor lag current).
Proof.
  destruct factor as [| | |a]; try contradiction.
  destruct current as [| | |p]; try contradiction.
  intros [A0 A1] P [->|(l & -> & L)].
  - cbn. discriminate.
  - destruct (dampen_finite a l p) as (q & D & E). rewrite D.
    cbn [nonNegative] in *. rewrite E.
    assert (0 <= a * l) by (apply Qmult_le_0_compat; lra).
    assert (0 <= (1 - a) * p) by (apply Qmult_le_0_compat; lra).
    lra.
Qed.

Lemma find_In (h : nat) (ts : list timer) (t : timer) :
  find (fun t => (handle t =? h)%nat) ts = Some t -> In t ts /\ handle t = h.
Proof.
  intro F. apply find_some in F. destruct F as [I E].
  apply Nat.eqb_eq in E. split; assumption.
Qed.

Lemma wellFormed_tick (h : nat) (now : Z) (s s' : state)
      (out : list emission) :
  wellFormed s -> tick h now s = Some (s', out) -> wellFormed s'.
Proof.
  intros W T.
  destruct (find (fun t => (handle t =? h)%nat) (timers s)) as [t|] eqn:F;
    [|rewrite (tick_inactive _ _ _ F) in T; discriminate].
  rewrite (tick_unfold _ now _ F) in T. inversion T; subst; clear T.
  destruct (find_In _ _ F) as [It Eh].
  destruct W as [Hh Hi Hf Hl Hc Ht Hn Hfr Htm Hck].
  assert (Ok : timerOk (fst (lagCheck (sampled now s) t))).
  { apply lagCheck_timerOk. rewrite Forall_forall in Htm. exact (Htm t It). }
  constructor; unfold sampled; cbn; try assumption.
  - apply dampen_nonNegative; try assumption.
    apply rawLag_shape; assumption.
  - eexists. reflexivity.
  - rewrite putTimer_handles. exact Hn.
  - unfold putTimer. apply Forall_forall. intros u Iu.
    apply in_map_iff in Iu. destruct Iu as (x & E & Ix).
    rewrite Forall_forall in Hfr.
    destruct (handle x =? _)%nat eqn:B; subst u.
    + rewrite lagCheck_handle. exact (Hfr t It).
    + exact (Hfr x Ix).
  - unfold putTimer. apply Forall_forall. intros u Iu.
    apply in_map_iff in Iu. destruct Iu as (x & E & Ix).
    rewrite Forall_forall in Htm.
    destruct (handle x =? _)%nat; subst u; [exact Ok | exact (Htm x Ix)].
  - destruct (checkInterval s) as [c|]; [|exact I].
    unfold active in *. cbn. rewrite putTimer_handles. exact Hck.
Qed.

Lemma wellFormed_step (c : call) (s : state) :
  wellFormed s -> wellFormed (fst (step c s)).
Proof.
  intro W.
  destruct c as [r|v| |v|v|v| | |fn v|fn|h now]; cbn [step fst];
    try exact W.
  - apply wellFormed_interval; exact W.
  - apply wellFormed_maxLag; exact W.
  - apply wellFormed_consecutiveLags; exact W.
  - apply wellFormed_smoothingFactor; exact W.
  - apply wellFormed_shutdown; exact W.
  - apply wellFormed_onLag; exact W.
  - apply wellFormed_onEasing; exact W.
  - destruct (tick h now s) as [[s' out]|] eqn:T; [|exact W].
    exact (@wellFormed_tick h now s s' out W T).
Qed.

Lemma wellFormed_after (cs : list call) :
  forall s, wellFormed s -> wellFormed (after cs s).
Proof.
  induction cs as [|c cs IH]; intros s W; [exact W|].
  rewrite after_cons. apply IH. apply wellFormed_step. exact W.
Qed.

Lemma reachable_wellFormed (s : state) : reachable s -> wellFormed s.
Proof.
  intros [cs <-]. apply wellFormed_after. exact wellFormed_loaded.
Qed.

(** X2: whatever calls were made since loading, the high-water mark is at
    least 10, the interval at least 16, the smoothing factor in (0,1] and
    the consecutive-lag threshold a rounded number. *)
Theorem reachable_configuration (s : state) :
  reachable s ->
  atLeast 10 (highWater s) /\ atLeast 16 (interval s)
  /\ validFactor (smoothingFactor s) /\ rounded (successiveLags s).
Proof.
  intro R. destruct (reachable_wellFormed R).
  repeat split; assumption.
Qed.

Lemma reachable_configuration_witness :
  let s := after [MaxLag (VNumber (Fin (62 # 5))); Interval (VNumber (ofZ 20));
                  SmoothingFactor (VNumber (Fin (1 # 2)));
                  ConsecutiveLags (VNumber (Fin (5 # 2)))] loaded in
  atLeast 10 (highWater s) /\ atLeast 16 (interval s)
  /\ validFactor (smoothingFactor s) /\ rounded (successiveLags s).
Proof.
  apply reachable_configuration. eexists. reflexivity.
Defined.

(** X3: in every state reached from loading the smoothed lag is a finite
    number that is not negative, and [lag()] returns an integer that is not
    negative. *)
Theorem reachable_lag_nonnegative (s : state) :
  reachable s ->
  nonNegative (currentLag s)
  /\ exists z, toobusy_lag s = ofZ z /\ (0 <= z)%Z.
Proof.
  intro R. destruct (reachable_wellFormed R) as [_ _ _ _ Hc _ _ _ _ _].
  split; [exact Hc|]. unfold toobusy_lag.
  destruct (currentLag s) as [| | |c]; try contradiction.
  cbn in Hc. eexists. split; [reflexivity|].
  change 0%Z with (Qfloor 0). apply Qfloor_resp_le. lra.
Qed.

Lemma reachable_lag_nonnegative_witness :
  let s := after [Tick 0 1000; Tick 0 2100] loaded in
  nonNegative (currentLag s)
  /\ exists z, toobusy_lag s = ofZ z /\ (0 <= z)%Z.
Proof.
  apply reachable_lag_nonnegative. eexists. reflexivity.
Defined.

(** X4: in every state reached from loading the active timers have
    distinct handles, each keeps a tick count that is not negative and is at
    least 1 while it is lagging, and when [started()] is true the timer that
    [checkInterval] holds is active. *)
Theorem reachable_timers (s : state) :
  reachable s ->
  NoDup (map handle (timers s))
  /\ Forall timerOk (timers s)
  /\ (toobusy_started s = true ->
      exists h, checkInterval s = Some h /\ active h s = true).
Proof.
  intro R. destruct (reachable_wellFormed R) as [_ _ _ _ _ _ Hn _ Ht Hk].
  split; [exact Hn|]. split; [exact Ht|].
  unfold toobusy_started. destruct (checkInterval s) as [h|];
    [|discriminate].
  intros _. exists h. split; [reflexivity | exact Hk].
Qed.

Lemma reachable_timers_witness :
  let s := after [OnLag 1%nat (VNumber (ofZ 10)); Tick 0 1000; Tick 0 2000;
                  Interval (VNumber (ofZ 100))] loaded in
  NoDup (map handle (timers s))
  /\ Forall timerOk (timers s)
  /\ (toobusy_started s = true ->
      exists h, checkInterval s = Some h /\ active h s = true).
Proof.
  apply reachable_timers. eexists. reflexivity.
Defined.

(** X11: in every state reached from loading, for a draw in [0,1),
    [toobusy()] is true only when the lag is above the high-water mark, and
    it is true whenever the lag is at least twice the mark. *)
Theorem reachable_toobusy (s : state) (random : Q) :
  reachable s -> 0 <= random < 1 ->
  (toobusy random s = true -> ltb (highWater s) (currentLag s) = true)
  /\ (leb (mul (ofZ 2) (highWater s)) (currentLag s) = true ->
      toobusy random s = true).
Proof.
  intros R [R0 R1].
  destruct (reachable_wellFormed R) as [Hh _ _ _ Hc _ _ _ _ _].
  unfold toobusy.
  destruct (highWater s) as [| | |h]; try contradiction;
    destruct (currentLag s) as [| | |c]; try contradiction.
  - split; intro H; cbn in H; discriminate.
  - cbn [atLeast nonNegative] in *. change (inject_Z 10) with 10 in Hh.
    cbn [sub neg add div mul ofZ ltb leb].
    rewrite isZero_false by lra.
    split; intro H.
    + apply Qltb_lt in H. apply Qltb_lt.
      apply Qlt_div_iff in H; [|lra].
      assert (0 <= random * h) by (apply Qmult_le_0_compat; lra).
      lra.
    + apply Qle_bool_iff in H. change (inject_Z 2) with 2 in H.
      apply Qltb_lt. apply Qlt_div_iff; [lra|].
      assert (random * h < 1 * h) by (apply Qmult_lt_r; lra).
      lra.
Qed.

Lemma reachable_toobusy_witness :
  let s := after [Tick 0 1000; Tick 0 2100; Tick 0 3200] loaded in
  (toobusy (1 # 2) s = true -> ltb (highWater s) (currentLag s) = true)
  /\ (leb (mul (ofZ 2) (highWater s)) (currentLag s) = true ->
      toobusy (1 # 2) s = true).
Proof.
  apply reachable_toobusy; [eexists; reflexivity | lra].
Defined.

(** ** The high-water mark *)

(** X1: [maxLag] throws, with the state untouched, for a truthy argument
    that is not a number and for a number other than 0 below 9.5, which
    rounds below 10; a number from 9.5 up is rounded, stored as the
    high-water mark and returned, and nothing else changes: no timer is
    started and the lag is kept. *)
Theorem maxLag_validation (s : state) :
  (forall v, toBoolean v = true -> isNumber v = false ->
      exists m, toobusy_maxLag v s = (Throw m, s))
  /\ (forall q, ~ q == 0 -> q < 19 # 2 ->
      exists m, toobusy_maxLag (VNumber (Fin q)) s = (Throw m, s))
  /\ (forall q, 19 # 2 <= q ->
      toobusy_maxLag (VNumber (Fin q)) s
      = (Return (Math_round (Fin q)), set_highWater (Math_round (Fin q)) s))
  /\ (exists m, toobusy_maxLag (VNumber (ofZ 9)) s = (Throw m, s))
  /\ toobusy_maxLag (VNumber (ofZ 10)) s
     = (Return (ofZ 10), set_highWater (ofZ 10) s).
Proof.
  assert (Low : forall q, ~ q == 0 -> q < 19 # 2 ->
      exists m, toobusy_maxLag (VNumber (Fin q)) s = (Throw m, s)).
  { intros q NZ L. unfold toobusy_maxLag.
    cbn [toBoolean truthy]. rewrite (isZero_false NZ). cbn [negb].
    rewrite round_below; [eexists; reflexivity|].
    change (inject_Z 10) with 10. lra. }
  assert (High : forall q, 19 # 2 <= q ->
      toobusy_maxLag (VNumber (Fin q)) s
      = (Return (Math_round (Fin q)), set_highWater (Math_round (Fin q)) s)).
  { intros q L. unfold toobusy_maxLag.
    cbn [toBoolean truthy]. rewrite isZero_false by lra. cbn [negb].
    rewrite round_not_below; [reflexivity|].
    change (inject_Z 10) with 10. lra. }
  split; [intros v T N; unfold toobusy_maxLag; rewrite T; not_a_number v|].
  split; [exact Low|]. split; [exact High|].
  split; [apply Low; [discriminate | reflexivity]|].
  apply (High (inject_Z 10)). discriminate.
Qed.

Lemma maxLag_validation_witness :
  toobusy_maxLag (VNumber (Fin (97 # 10))) loaded
  = (Return (Math_round (Fin (97 # 10))),
     set_highWater (Math_round (Fin (97 # 10))) loaded).
Proof.
  apply (proj1 (proj2 (proj2 (maxLag_validation loaded)))). discriminate.
Defined.

(** ** Smoothing *)



(** ** The lag counter *)

Lemma count_reached (k n : Z) :
  gtb (ofZ k) (sub (ofZ n) (ofZ 1)) = (n - 1 <? k)%Z.
Proof.
  cbn [gtb ltb ofZ sub neg add].
  assert (E : inject_Z n + - inject_Z 1 == inject_Z (n - 1)).
  { unfold Z.sub. rewrite inject_Z_plus, inject_Z_opp. reflexivity. }
  destruct (Z.ltb_spec (n - 1) k) as [L|L].
  - apply Qltb_lt. rewrite E. rewrite <- Zlt_Qlt. exact L.
  - apply Qltb_ge. rewrite E. rewrite <- Zle_Qle. exact L.
Qed.

(** X13: a consecutive-lag threshold of 1 or less, negative ones included,
    asks for a single tick: a timer that is not lagging raises the lag event
    on the first tick that finds the lag above an enabled threshold. *)
Theorem low_threshold_fires_at_once (s : state) (t : timer) (q : Q) :
  strictEq (lagEventThreshold s) (ofZ (-1)) = false ->
  gtb (currentLag s) (lagEventThreshold s) = true ->
  isLagging t = false -> (0 <= lagTicks t)%Z ->
  successiveLags s = Fin q -> q <= 1 ->
  lagCheck s t
  = (Timer (handle t) (delay t) true (lagTicks t + 1),
     [Emit LAG_EVENT (currentLag s) (lagListeners s)]).
Proof.
  intros En Ab Nl P Eq Lq. unfold lagCheck.
  rewrite En, Ab, Nl, Eq. cbn [negb andb Bool.eqb].
  assert (G : gtb (ofZ (lagTicks t + 1)) (sub (Fin q) (ofZ 1)) = true).
  { cbn [gtb ltb ofZ sub neg add]. apply Qltb_lt.
    assert (1 <= inject_Z (lagTicks t + 1)).
    { change 1 with (inject_Z 1). rewrite <- Zle_Qle. lia. }
    change (inject_Z 1) with 1. lra. }
  rewrite G. reflexivity.
Qed.

Lemma low_threshold_fires_at_once_witness :
  let s := sampled 2000
             (after [ConsecutiveLags (VNumber (ofZ (-5)));
                     OnLag 1%nat (VNumber (ofZ 10)); Tick 0 1000] loaded) in
  lagCheck s (Timer 0 (ofZ 500) false 0)
  = (Timer 0 (ofZ 500) true 1,
     [Emit LAG_EVENT (currentLag s) (lagListeners s)]).
Proof.
  apply (@low_threshold_fires_at_once
           (sampled 2000
              (after [ConsecutiveLags (VNumber (ofZ (-5)));
                      OnLag 1%nat (VNumber (ofZ 10)); Tick 0 1000] loaded))
           (Timer 0 (ofZ 500) false 0) (-5)).
  - reflexivity.
  - reflexivity.
  - reflexivity.
  - cbn. lia.
  - reflexivity.
  - discriminate.
Defined.

(** ** Runs of ticks *)

Lemma emitted_cons (c : call) (cs : list call) (s : state) :
  emitted (c :: cs) s = snd (step c s) ++ emitted cs (fst (step c s)).
Proof.
  unfold emitted. cbn [run].
  destruct (step c s) as [s1 o1]. cbn [fst snd].
  destruct (run cs s1) as [s2 o2]. reflexivity.
Qed.

Lemma after_app (cs1 cs2 : list call) :
  forall s, after (cs1 ++ cs2) s = after cs2 (after cs1 s).
Proof.
  induction cs1 as [|c cs1 IH]; intro s; [reflexivity|].
  cbn [app]. rewrite !after_cons. apply IH.
Qed.

Lemma find_putTimer (h : nat) (ts : list timer) (t t' : timer) :
  find (fun t => (handle t =? h)%nat) ts = Some t -> handle t' = h ->
  find (fun t => (handle t =? h)%nat) (putTimer t' ts) = Some t'.
Proof.
  intros F <-. induction ts as [|u ts IH]; [discriminate|].
  cbn [find putTimer map] in *.
  destruct (handle u =? handle t')%nat eqn:B.
  - cbn [find]. rewrite Nat.eqb_refl. reflexivity.
  - cbn [find]. rewrite B. apply IH. exact F.
Qed.

Lemma step_tick (h : nat) (now : Z) (s : state) (t : timer) :
  find (fun t => (handle t =? h)%nat) (timers s) = Some t ->
  step (Tick h now) s
  = (set_timers (putTimer (fst (lagCheck (sampled now s) t)) (timers s))
                (sampled now s),
     snd (lagCheck (sampled now s) t)).
Proof.
  intro F. cbn [step]. rewrite (tick_unfold _ now _ F). reflexivity.
Qed.

Lemma find_handle (h : nat) (ts : list timer) (t : timer) :
  find (fun t => (handle t =? h)%nat) ts = Some t -> handle t = h.
Proof. intro F. apply (find_In _ _ F). Qed.

(** While the count of a timer that is not lagging grows towards the
    threshold, nothing is emitted; the tick that reaches it emits the lag
    event. *)
Lemma ticks_until_lag (h : nat) (n : Z) (nows : list Z) :
  forall (s : state) (t : timer),
    find (fun t => (handle t =? h)%nat) (timers s) = Some t ->
    isLagging t = false ->
    successiveLags s = ofZ n ->
    strictEq (lagEventThreshold s) (ofZ (-1)) = false ->
    staysAbove h nows s = true ->
    (lagTicks t < n)%Z ->
    (lagTicks t + Z.of_nat (List.length nows) <= n)%Z ->
    emitted (map (Tick h) nows) s
    = if (lagTicks t + Z.of_nat (List.length nows) =? n)%Z
      then [Emit LAG_EVENT (currentLag (after (map (Tick h) nows) s))
                 (lagListeners s)]
      else [].
Proof.
  induction nows as [|now nows IH]; intros s t F Nl Hn En Ab Lt Le.
  - cbn [List.length Z.of_nat map]. rewrite Z.add_0_r.
    destruct (Z.eqb_spec (lagTicks t) n); [lia | reflexivity].
  - cbn [map staysAbove] in *. rewrite emitted_cons, after_cons.
    rewrite (@step_tick h now s t F) in *. cbn [fst snd] in *.
    apply andb_true_iff in Ab. destruct Ab as [Ab1 Ab2].
    set (s1 := sampled now s) in *.
    assert (Ab' : gtb (currentLag s1) (lagEventThreshold s) = true)
      by exact Ab1.
    assert (C : lagCheck s1 t
                = if (n - 1 <? lagTicks t + 1)%Z
                  then (Timer (handle t) (delay t) true (lagTicks t + 1),
                        [Emit LAG_EVENT (currentLag s1) (lagListeners s1)])
                  else (Timer (handle t) (delay t) false (lagTicks t + 1),
                        [])).
    { unfold lagCheck.
      change (lagEventThreshold s1) with (lagEventThreshold s).
      change (successiveLags s1) with (successiveLags s).
      rewrite En, Ab', Nl, Hn. cbn [negb andb Bool.eqb].
      rewrite count_reached. reflexivity. }
    rewrite C in *. cbn [List.length] in *. rewrite Nat2Z.inj_succ in *.
    destruct (Z.ltb_spec (n - 1) (lagTicks t + 1)) as [G|G];
      cbn [fst snd] in *.
    + assert (E0 : nows = []) by (destruct nows; [reflexivity | cbn in Le; lia]).
      subst nows. cbn [List.length Z.of_nat map].
      destruct (Z.eqb_spec (lagTicks t + Z.succ 0) n); [|lia].
      reflexivity.
    + match goal with |- context [emitted _ ?st] => set (s2 := st) in * end.
      pose proof (@find_handle h (timers s) t F) as Fh.
      assert (F2 : find (fun t => (handle t =? h)%nat) (timers s2)
                   = Some (Timer (handle t) (delay t) false (lagTicks t + 1))).
      { apply (@find_putTimer h (timers s) t); [exact F | exact Fh]. }
      rewrite (IH s2 _ F2); cbn [isLagging lagTicks]; try assumption;
        try reflexivity; try lia.
      replace (lagTicks t + 1 + Z.of_nat (List.length nows))%Z
        with (lagTicks t + Z.succ (Z.of_nat (List.length nows)))%Z by lia.
      reflexivity.
Qed.

(** X6: with a consecutive-lag threshold of [n], a timer that starts from
    a count of 0 and finds the lag above an enabled threshold on every tick
    emits nothing on the first [n - 1] ticks and exactly the lag event on
    tick [n], carrying the smoothed lag of that tick to the lag listeners. *)
Theorem lag_event_after_consecutive_ticks
        (h : nat) (n : Z) (nows : list Z) (s : state) (t : timer) :
  find (fun t => (handle t =? h)%nat) (timers s) = Some t ->
  isLagging t = false -> lagTicks t = 0%Z ->
  successiveLags s = ofZ n -> (1 <= n)%Z ->
  strictEq (lagEventThreshold s) (ofZ (-1)) = false ->
  staysAbove h nows s = true ->
  ((Z.of_nat (List.length nows) < n)%Z ->
   emitted (map (Tick h) nows) s = [])
  /\ (Z.of_nat (List.length nows) = n ->
      emitted (map (Tick h) nows) s
      = [Emit LAG_EVENT (currentLag (after (map (Tick h) nows) s))
              (lagListeners s)]).
Proof.
  intros F Nl Z0 Hn N1 En Ab. split; intro L.
  - rewrite (@ticks_until_lag h n nows s t F Nl Hn En Ab) by lia.
    destruct (Z.eqb_spec (lagTicks t + Z.of_nat (List.length nows)) n);
      [lia | reflexivity].
  - rewrite (@ticks_until_lag h n nows s t F Nl Hn En Ab) by lia.
    destruct (Z.eqb_spec (lagTicks t + Z.of_nat (List.length nows)) n);
      [reflexivity | lia].
Qed.

(** Three consecutive lags asked for, a threshold of 10 ms, and ticks that
    are each 500 ms late. *)
Lemma lag_event_after_consecutive_ticks_witness :
  let s := after [ConsecutiveLags (VNumber (ofZ 3));
                  OnLag 1%nat (VNumber (ofZ 10)); Tick 0 1000] loaded in
  ((Z.of_nat (List.length [2000; 3000; 4000]%Z) < 3)%Z ->
   emitted (map (Tick 0) [2000; 3000; 4000]%Z) s = [])
  /\ (Z.of_nat (List.length [2000; 3000; 4000]%Z) = 3%Z ->
      emitted (map (Tick 0) [2000; 3000; 4000]%Z) s
      = [Emit LAG_EVENT
              (currentLag (after (map (Tick 0) [2000; 3000; 4000]%Z) s))
              (lagListeners s)]).
Proof.
  apply (@lag_event_after_consecutive_ticks 0%nat 3%Z [2000; 3000; 4000]%Z
           (after [ConsecutiveLags (VNumber (ofZ 3));
                   OnLag 1%nat (VNumber (ofZ 10)); Tick 0 1000] loaded)
           (Timer 0 (ofZ 500) false 0)).
  - reflexivity.
  - reflexivity.
  - reflexivity.
  - reflexivity.
  - lia.
  - reflexivity.
  - reflexivity.
Defined.

(** From the lagging state the count runs down one per tick, and the tick
    that takes it from 1 to 0 emits the easing event. *)
Lemma ticks_until_easing (h : nat) (nows : list Z) :
  forall (s : state) (t : timer),
    find (fun t => (handle t =? h)%nat) (timers s) = Some t ->
    isLagging t = true ->
    (1 <= lagTicks t)%Z ->
    (Z.of_nat (List.length nows) <= lagTicks t)%Z ->
    emitted (map (Tick h) nows) s
    = if (Z.of_nat (List.length nows) =? lagTicks t)%Z
      then [Emit EASING_EVENT (currentLag (after (map (Tick h) nows) s))
                 (easingListeners s)]
      else [].
Proof.
  induction nows as [|now nows IH]; intros s t F Lg P Le.
  - cbn [List.length Z.of_nat map].
    destruct (Z.eqb_spec 0 (lagTicks t)); [lia | reflexivity].
  - cbn [map]. rewrite emitted_cons, after_cons.
    rewrite (@step_tick h now s t F). cbn [fst snd].
    set (s1 := sampled now s) in *.
    rewrite (lagCheck_while_lagging s1 t Lg).
    cbn [List.length] in *. rewrite Nat2Z.inj_succ in *.
    pose proof (@find_handle h (timers s) t F) as Fh.
    destruct (Z.eqb_spec (lagTicks t) 1) as [E|E]; cbn [fst snd].
    + assert (E0 : nows = [])
        by (destruct nows; [reflexivity | cbn in Le; lia]).
      subst nows. cbn [List.length Z.of_nat map].
      destruct (Z.eqb_spec (Z.succ 0) (lagTicks t)); [|lia]. reflexivity.
    + destruct (Z.ltb_spec 0 (lagTicks t)) as [G|G]; [|lia].
      match goal with |- context [emitted _ ?st] => set (s2 := st) in * end.
      assert (F2 : find (fun t => (handle t =? h)%nat) (timers s2)
                   = Some (Timer (handle t) (delay t) true (lagTicks t - 1))).
      { apply (@find_putTimer h (timers s) t); [exact F | exact Fh]. }
      rewrite (IH s2 _ F2); cbn [isLagging lagTicks]; try reflexivity;
        try lia.
      destruct (Z.eqb_spec (Z.of_nat (List.length nows)) (lagTicks t - 1));
        destruct (Z.eqb_spec (Z.succ (Z.of_nat (List.length nows)))
                             (lagTicks t)); try lia; reflexivity.
Qed.

(** X7: a timer in the lagging state with a count of [k] emits nothing on
    its next [k - 1] ticks and exactly the easing event on tick [k],
    carrying the smoothed lag of that tick to the easing listeners; the lag
    those ticks measure plays no part. *)
Theorem easing_event_after_countdown
        (h : nat) (nows : list Z) (s : state) (t : timer) :
  find (fun t => (handle t =? h)%nat) (timers s) = Some t ->
  isLagging t = true -> (1 <= lagTicks t)%Z ->
  ((Z.of_nat (List.length nows) < lagTicks t)%Z ->
   emitted (map (Tick h) nows) s = [])
  /\ (Z.of_nat (List.length nows) = lagTicks t ->
      emitted (map (Tick h) nows) s
      = [Emit EASING_EVENT (currentLag (after (map (Tick h) nows) s))
              (easingListeners s)]).
Proof.
  intros F Lg P. split; intro L.
  - rewrite (@ticks_until_easing h nows s t F Lg P) by lia.
    destruct (Z.eqb_spec (Z.of_nat (List.length nows)) (lagTicks t));
      [lia | reflexivity].
  - rewrite (@ticks_until_easing h nows s t F Lg P) by lia.
    destruct (Z.eqb_spec (Z.of_nat (List.length nows)) (lagTicks t));
      [reflexivity | lia].
Qed.

(** The state that three late ticks under a threshold of three leave
    behind, and three punctual ticks after it. *)
Lemma easing_event_after_countdown_witness :
  let s := after [ConsecutiveLags (VNumber (ofZ 3));
                  OnLag 1%nat (VNumber (ofZ 10)); OnEasing 2%nat;
                  Tick 0 1000; Tick 0 2000; Tick 0 3000; Tick 0 4000]
                 loaded in
  ((Z.of_nat (List.length [4500; 5000; 5500]%Z) < 3)%Z ->
   emitted (map (Tick 0) [4500; 5000; 5500]%Z) s = [])
  /\ (Z.of_nat (List.length [4500; 5000; 5500]%Z) = 3%Z ->
      emitted (map (Tick 0) [4500; 5000; 5500]%Z) s
      = [Emit EASING_EVENT
              (currentLag (after (map (Tick 0) [4500; 5000; 5500]%Z) s))
              (easingListeners s)]).
Proof.
  apply (@easing_event_after_countdown 0%nat [4500; 5000; 5500]%Z
           (after [ConsecutiveLags (VNumber (ofZ 3));
                   OnLag 1%nat (VNumber (ofZ 10)); OnEasing 2%nat;
                   Tick 0 1000; Tick 0 2000; Tick 0 3000; Tick 0 4000]
                  loaded)
           (Timer 0 (ofZ 500) true 3)).
  - reflexivity.
  - reflexivity.
  - cbn. lia.
Defined.

(** ** Histories without lag listeners *)

Lemma lagCheck_unarmed (s : state) (t : timer) :
  lagEventThreshold s = ofZ (-1) ->
  isLagging t = false -> lagTicks t = 0%Z ->
  lagCheck s t = (Timer (handle t) (delay t) false 0, []).
Proof.
  intros E L Z0. unfold lagCheck. rewrite E, L, Z0. reflexivity.
Qed.

Lemma unarmed_step (c : call) (s : state) :
  unarmed s -> isOnLag c = false ->
  unarmed (fst (step c s)) /\ snd (step c s) = [].
Proof.
  intros [E Q] N.
  destruct c as [r|v| |v|v|v| | |fn v|fn|h now]; cbn [step fst snd];
    try discriminate; try (split; [split; assumption | reflexivity]).
  - split; [|reflexivity]. unfold toobusy_interval.
    destruct (negb (toBoolean v)); [split; assumption|].
    destruct v; try (split; assumption).
    destruct (ltb (Math_round n) (ofZ 16)); [split; assumption|].
    split; [exact E|]. unfold start. cbn.
    apply Forall_app. split; [exact Q|].
    constructor; [split; reflexivity | constructor].
  - split; [|reflexivity]. unfold toobusy_maxLag.
    destruct (negb (toBoolean v)); [split; assumption|].
    destruct v; try (split; assumption).
    destruct (ltb (Math_round n) (ofZ 10)); split; assumption.
  - split; [|reflexivity]. unfold toobusy_consecutiveLags.
    destruct (negb (toBoolean v)); [split; assumption|].
    destruct v; split; assumption.
  - split; [|reflexivity]. unfold toobusy_smoothingFactor.
    destruct (negb (toBoolean v)); [split; assumption|].
    destruct v; try (split; assumption).
    destruct (leb n (ofZ 0) || gtb n (ofZ 1)); split; assumption.
  - split; [|reflexivity].
    unfold toobusy_shutdown, clearInterval, unarmed.
    cbn [checkInterval set_currentLag].
    destruct (checkInterval s); cbn; (split; [exact E|]);
      [apply Forall_filter|]; exact Q.
  - destruct (find (fun t => (handle t =? h)%nat) (timers s)) as [t|] eqn:F.
    + rewrite (tick_unfold _ now _ F).
      destruct (find_In _ _ F) as [It _].
      rewrite Forall_forall in Q. destruct (Q t It) as [L Z0].
      rewrite (lagCheck_unarmed (sampled now s) t E L Z0). cbn [fst snd].
      split; [|reflexivity]. split; [exact E|].
      cbn [timers set_timers]. unfold putTimer.
      apply Forall_forall. intros u Iu. apply in_map_iff in Iu.
      destruct Iu as (x & Ex & Ix).
      destruct (handle x =? _)%nat; subst u; [split; reflexivity|].
      exact (Q x Ix).
    + rewrite (tick_inactive _ now _ F).
      split; [split; assumption | reflexivity].
Qed.

(** X5: lag events are opt-in.  From loading on, a history of calls in
    which no lag listener is registered emits nothing, neither a lag nor an
    easing event, whatever the ticks measure. *)
Theorem no_onLag_no_events (cs : list call) :
  forallb (fun c => negb (isOnLag c)) cs = true ->
  emitted cs loaded = [].
Proof.
  assert (G : forall s, unarmed s ->
              forallb (fun c => negb (isOnLag c)) cs = true ->
              emitted cs s = []).
  { induction cs as [|c cs IH]; intros s U A; [reflexivity|].
    cbn [forallb] in A. apply andb_true_iff in A. destruct A as [A1 A2].
    apply negb_true_iff in A1.
    destruct (@unarmed_step c s U A1) as [U' O].
    rewrite emitted_cons, O. cbn [app]. apply IH; assumption. }
  apply G. split; [reflexivity|].
  constructor; [split; reflexivity | constructor].
Qed.

Lemma no_onLag_no_events_witness :
  emitted [OnEasing 2%nat; MaxLag (VNumber (ofZ 20)); Tick 0 1000;
           Tick 0 9000; Interval (VNumber (ofZ 100)); Tick 1 20000;
           Tick 0 30000; Shutdown; Tick 0 50000] loaded = [].
Proof.
  apply no_onLag_no_events. reflexivity.
Defined.

Lemma lagCheck_off (s : state) (t : timer) :
  lagEventsOff (lagEventThreshold s) ->
  Forall (fun e => event e = EASING_EVENT) (snd (lagCheck s t)).
Proof.
  intro O. unfold lagCheck.
  assert (C : negb (strictEq (lagEventThreshold s) (ofZ (-1)))
              && gtb (currentLag s) (lagEventThreshold s) = false).
  { destruct O as [O|O]; rewrite O; [reflexivity|].
    cbn. destruct (currentLag s); reflexivity. }
  rewrite C. cbn [andb snd].
  destruct (_ && _ && isLagging t); repeat constructor.
Qed.

(** X12: a threshold of -1, which is what [onLag(fn, -1)] stores, or of
    [NaN] switches the lag event off: until another lag listener is
    registered no history of calls emits a lag event. *)
Theorem disabled_threshold_no_lag_event (cs : list call) :
  forall s,
    lagEventsOff (lagEventThreshold s) ->
    forallb (fun c => negb (isOnLag c)) cs = true ->
    Forall (fun e => event e = EASING_EVENT) (emitted cs s).
Proof.
  induction cs as [|c cs IH]; intros s O A; [constructor|].
  cbn [forallb] in A. apply andb_true_iff in A. destruct A as [A1 A2].
  apply negb_true_iff in A1.
  rewrite emitted_cons. apply Forall_app. split.
  - destruct c as [r|v| |v|v|v| | |fn v|fn|h now]; cbn [step snd];
      try constructor.
    destruct (find (fun t => (handle t =? h)%nat) (timers s)) as [t|] eqn:F.
    + rewrite (tick_unfold _ now _ F). cbn [snd]. apply lagCheck_off.
      exact O.
    + rewrite (tick_inactive _ now _ F). constructor.
  - apply IH; [|exact A2].
    rewrite (step_keeps_lagEventThreshold c s A1). exact O.
Qed.

Lemma disabled_threshold_no_lag_event_witness :
  let s := after [OnLag 1%nat (VNumber (ofZ 10)); Tick 0 1000; Tick 0 2000;
                  OnLag 3%nat (VNumber (ofZ (-1)))] loaded in
  Forall (fun e => event e = EASING_EVENT)
         (emitted [Tick 0 3000; Tick 0 4000; Tick 0 5000] s).
Proof.
  apply disabled_threshold_no_lag_event.
  - left. reflexivity.
  - reflexivity.
Defined.

(** ** Shutdown when the interval was never changed *)

Lemma soleTimer_step (c : call) (s : state) :
  soleTimer s -> isInterval c = false -> soleTimer (fst (step c s)).
Proof.
  intros S N.
  destruct c as [r|v| |v|v|v| | |fn v|fn|h now]; cbn [step fst];
    try discriminate; try exact S.
  - unfold toobusy_maxLag. destruct (negb (toBoolean v)); [exact S|].
    destruct v; try exact S.
    destruct (ltb (Math_round n) (ofZ 10)); exact S.
  - unfold toobusy_consecutiveLags. destruct (negb (toBoolean v)); [exact S|].
    destruct v; exact S.
  - unfold toobusy_smoothingFactor. destruct (negb (toBoolean v)); [exact S|].
    destruct v; try exact S.
    destruct (leb n (ofZ 0) || gtb n (ofZ 1)); exact S.
  - left. unfold toobusy_shutdown, clearInterval.
    cbn [checkInterval set_currentLag].
    destruct S as [[T C]|(t & T & C)]; rewrite C; cbn; rewrite T;
      [split; reflexivity|].
    cbn. rewrite Nat.eqb_refl. split; reflexivity.
  - rewrite onLag_result. exact S.
  - destruct (find (fun t => (handle t =? h)%nat) (timers s)) as [t0|] eqn:F.
    + rewrite (tick_unfold _ now _ F). cbn [fst].
      destruct S as [[T C]|(t & T & C)]; [rewrite T in F; discriminate|].
      right. exists (fst (lagCheck (sampled now s) t0)).
      rewrite T in F. cbn [find] in F.
      destruct (handle t =? h)%nat; [|discriminate].
      inversion F; subst t0.
      cbn [timers set_timers checkInterval sampled set_lastTime
           set_currentLag].
      rewrite T, C. unfold putTimer. cbn [map].
      rewrite lagCheck_handle, Nat.eqb_refl. split; reflexivity.
    + rewrite (tick_inactive _ now _ F). exact S.
Qed.

Lemma soleTimer_after (cs : list call) :
  forall s, soleTimer s ->
            forallb (fun c => negb (isInterval c)) cs = true ->
            soleTimer (after cs s).
Proof.
  induction cs as [|c cs IH]; intros s S A; [exact S|].
  cbn [forallb] in A. apply andb_true_iff in A. destruct A as [A1 A2].
  apply negb_true_iff in A1.
  rewrite after_cons. apply IH; [|exact A2].
  apply soleTimer_step; assumption.
Qed.

Lemma soleTimer_shutdown (s : state) :
  soleTimer s -> stopped (toobusy_shutdown s).
Proof.
  intro S. unfold toobusy_shutdown, clearInterval, stopped.
  cbn [checkInterval set_currentLag].
  destruct S as [[T C]|(t & T & C)]; rewrite C; cbn; rewrite T;
    [repeat split|].
  cbn. rewrite Nat.eqb_refl. repeat split.
Qed.

Lemma stopped_step (c : call) (s : state) :
  stopped s -> isInterval c = false ->
  stopped (fst (step c s)) /\ snd (step c s) = [].
Proof.
  intros S N. pose proof S as (T & C & L).
  destruct c as [r|v| |v|v|v| | |fn v|fn|h now]; cbn [step fst snd];
    try discriminate; try (split; [exact S | reflexivity]).
  - split; [|reflexivity]. unfold toobusy_maxLag.
    destruct (negb (toBoolean v)); [exact S|].
    destruct v; try exact S.
    destruct (ltb (Math_round n) (ofZ 10)); exact S.
  - split; [|reflexivity]. unfold toobusy_consecutiveLags.
    destruct (negb (toBoolean v)); [exact S|].
    destruct v; exact S.
  - split; [|reflexivity]. unfold toobusy_smoothingFactor.
    destruct (negb (toBoolean v)); [exact S|].
    destruct v; try exact S.
    destruct (leb n (ofZ 0) || gtb n (ofZ 1)); exact S.
  - split; [|reflexivity]. apply soleTimer_shutdown. left.
    split; assumption.
  - split; [|reflexivity]. rewrite onLag_result. exact S.
  - rewrite tick_inactive; [split; [exact S | reflexivity]|].
    rewrite T. reflexivity.
Qed.

Lemma stopped_run (cs : list call) :
  forall s, stopped s ->
            forallb (fun c => negb (isInterval c)) cs = true ->
            stopped (after cs s) /\ emitted cs s = [].
Proof.
  induction cs as [|c cs IH]; intros s S A; [split; [exact S | reflexivity]|].
  cbn [forallb] in A. apply andb_true_iff in A. destruct A as [A1 A2].
  apply negb_true_iff in A1.
  destruct (@stopped_step c s S A1) as [S' O].
  rewrite after_cons, emitted_cons, O. cbn [app]. apply IH; assumption.
Qed.

(** X9: as long as the interval setter is never called, [shutdown()]
    stops the sampling for good: whatever was called before and whatever is
    called after, no timer is left, [started()] is false, nothing is emitted
    any more and [toobusy()] answers false for every draw that is not
    negative. *)
Theorem shutdown_stops_sampling (cs1 cs2 : list call) (random : Q) :
  forallb (fun c => negb (isInterval c)) cs1 = true ->
  forallb (fun c => negb (isInterval c)) cs2 = true ->
  0 <= random ->
  timers (after (cs1 ++ Shutdown :: cs2) loaded) = []
  /\ toobusy_started (after (cs1 ++ Shutdown :: cs2) loaded) = false
  /\ toobusy random (after (cs1 ++ Shutdown :: cs2) loaded) = false
  /\ emitted cs2 (after (cs1 ++ [Shutdown]) loaded) = [].
Proof.
  intros A1 A2 R.
  assert (S1 : soleTimer (after cs1 loaded)).
  { apply soleTimer_after; [|exact A1].
    right. eexists. split; reflexivity. }
  assert (S2 : stopped (after (cs1 ++ [Shutdown]) loaded)).
  { rewrite after_app. apply (@soleTimer_shutdown _ S1). }
  destruct (@stopped_run cs2 _ S2 A2) as [(T & C & L) O].
  replace (cs1 ++ Shutdown :: cs2) with ((cs1 ++ [Shutdown]) ++ cs2)
    by (rewrite <- app_assoc; reflexivity).
  rewrite (after_app (cs1 ++ [Shutdown]) cs2).
  split; [exact T|]. split; [unfold toobusy_started; rewrite C; reflexivity|].
  split; [apply toobusy_idle; assumption | exact O].
Qed.

Lemma shutdown_stops_sampling_witness :
  let cs1 := [OnLag 1%nat (VNumber (ofZ 10)); Tick 0 1000; Tick 0 5000] in
  let cs2 := [MaxLag (VNumber (ofZ 20)); Tick 0 9000; Tick 0 20000] in
  timers (after (cs1 ++ Shutdown :: cs2) loaded) = []
  /\ toobusy_started (after (cs1 ++ Shutdown :: cs2) loaded) = false
  /\ toobusy 0 (after (cs1 ++ Shutdown :: cs2) loaded) = false
  /\ emitted cs2 (after (cs1 ++ [Shutdown]) loaded) = [].
Proof.
  apply shutdown_stops_sampling; [reflexivity | reflexivity | lra].
Defined.

(** X14: after a shutdown the interval setter is the way back.  When the
    interval was never changed before, [shutdown()] followed by a successful
    [interval(q)] leaves exactly one timer, fresh and at the rounded delay,
    held by [checkInterval]; [started()] is true again and the lag starts
    from 0. *)
Theorem restart_after_shutdown (cs : list call) (q : Q) :
  forallb (fun c => negb (isInterval c)) cs = true ->
  31 # 2 <= q ->
  let s := after (cs ++ [Shutdown; Interval (VNumber (Fin q))]) loaded in
  exists h,
    timers s = [Timer h (Math_round (Fin q)) false 0]
    /\ checkInterval s = Some h
    /\ toobusy_started s = true
    /\ interval s = Math_round (Fin q)
    /\ currentLag s = ofZ 0.
Proof.
  intros A L s.
  assert (S1 : soleTimer (after cs loaded)).
  { apply soleTimer_after; [|exact A].
    right. eexists. split; reflexivity. }
  pose proof (@soleTimer_shutdown _ S1) as (T & C & Z0).
  unfold s. rewrite after_app.
  set (s0 := after cs loaded) in *.
  change (after [Shutdown; Interval (VNumber (Fin q))] s0)
    with (snd (toobusy_interval (VNumber (Fin q)) (toobusy_shutdown s0))).
  exists (nextHandle (toobusy_shutdown s0)).
  rewrite (@interval_keeps_timers q (toobusy_shutdown s0) L), T.
  unfold toobusy_interval, toobusy_started.
  cbn [toBoolean truthy]. rewrite isZero_false by lra. cbn [negb].
  rewrite round_not_below by (change (inject_Z 16) with 16; lra).
  repeat split.
Qed.

Lemma restart_after_shutdown_witness :
  let s := after ([OnLag 1%nat VUndefined; Tick 0 1000; Tick 0 3000]
                  ++ [Shutdown; Interval (VNumber (Fin (401 # 4)))])
                 loaded in
  exists h,
    timers s = [Timer h (Math_round (Fin (401 # 4))) false 0]
    /\ checkInterval s = Some h
    /\ toobusy_started s = true
    /\ interval s = Math_round (Fin (401 # 4))
    /\ currentLag s = ofZ 0.
Proof.
  apply (@restart_after_shutdown
           [OnLag 1%nat VUndefined; Tick 0 1000; Tick 0 3000] (401 # 4)).
  - reflexivity.
  - discriminate.
Defined.

(** X15: a firing emits at most one event; the event carries the smoothed
    lag that the firing has just stored, and it goes to the lag listeners if
    it is the lag event and to the easing listeners if it is the easing
    event, as they were registered before the firing. *)
Theorem tick_emits_at_most_one (h : nat) (now : Z) (s s' : state)
        (out : list emission) :
  tick h now s = Some (s', out) ->
  (List.length out <= 1)%nat
  /\ Forall (fun e =>
               carried e = currentLag s'
               /\ called e = match event e with
                             | LAG_EVENT => lagListeners s
                             | EASING_EVENT => easingListeners s
                             end) out.
Proof.
  intro T.
  destruct (find (fun t => (handle t =? h)%nat) (timers s)) as [t|] eqn:F;
    [|rewrite (tick_inactive _ now _ F) in T; discriminate].
  rewrite (tick_unfold _ now _ F) in T. inversion T; subst; clear T.
  unfold lagCheck.
  destruct (_ && _ && Bool.eqb (isLagging t) false).
  - destruct (gtb _ _); cbn [snd List.length];
      split; try lia; repeat constructor.
  - cbn [snd]. destruct (_ && _ && isLagging t); cbn [List.length];
      split; try lia; repeat constructor.
Qed.

Lemma tick_emits_at_most_one_witness :
  let s := after [OnLag 1%nat (VNumber (ofZ 10)); Tick 0 1000] loaded in
  exists s' out,
    tick 0 2000 s = Some (s', out)
    /\ (List.length out <= 1)%nat
    /\ Forall (fun e =>
                 carried e = currentLag s'
                 /\ called e = match event e with
                               | LAG_EVENT => lagListeners s
                               | EASING_EVENT => easingListeners s
                               end) out.
Proof.
  intro s. eexists. eexists. split; [reflexivity|].
  apply (@tick_emits_at_most_one 0%nat 2000%Z s). reflexivity.
Defined.

(** A draw of 1/2 right after shutting down the freshly loaded module. *)
Lemma shutdown_effects_witness :
  toobusy (1 # 2) (toobusy_shutdown loaded) = false.
Proof.
  apply (proj1 (proj2 (proj2 (shutdown_effects loaded)))). lra.
Defined.
